(** * cmd/block: the block command of txvm

    A shallow embedding of [cmd/block/block.go]: the modes [build], [new],
    [sign] and [validate] of the [block] command, written as programs of a
    small monad over the process state (standard streams, files, clock) in
    which a Go [panic] and [os.Exit] end the run.

    The packages the command imports ([flag], [encoding/hex], [time],
    [proto], and txvm's [bc], [protocol], [state], [validation] and
    [ed25519]) are not part of the file; they are the fields of the class
    [Packages], and every call the command makes to the block builder, to
    the validator and to [NewInitialBlock] is recorded in the process state,
    so that statements can say which calls a run makes and in which order. *)

From Stdlib Require Import ZArith Ascii String List DecimalString.
From stdpp Require Import base option list gmap strings.

Local Open Scope string_scope.
Local Open Scope list_scope.
Local Open Scope Z_scope.

(** ** Go values *)

(** A byte slice. *)
Definition bytes := list Byte.byte.

(** A Go [error] value, identified with the text [Error()] returns; the nil
    error is [None] of [option error]. *)
Definition error := string.

(** The line feed [Fprintln] ends a line with. *)
Definition newline : string := String (Ascii.ascii_of_nat 10) "".

(** [%d] of [fmt]. *)
Definition itoa (n : Z) : string := NilZero.string_of_int (Z.to_int n).

(** ** Package flag

    A [FlagSet] holds the current value of every defined flag and, after
    parsing, the remaining arguments.  The pointer [fs.String], [fs.Int] and
    [fs.Bool] return is the flag's name; reading through it looks the name
    up. *)

Inductive Value :=
| stringValue (s : string)
| intValue (i : Z)
| boolValue (b : bool).

Record FlagSet := {
  fs_name : string;
  formal : gmap string Value;
  fs_args : list string
}.

Definition NewFlagSet (name : string) : FlagSet :=
  {| fs_name := name; formal := ∅; fs_args := [] |}.

Definition define (name : string) (v : Value) (fs : FlagSet) : FlagSet :=
  {| fs_name := fs_name fs; formal := <[name := v]> (formal fs);
     fs_args := fs_args fs |}.

Definition fs_String (name value : string) := define name (stringValue value).
Definition fs_Int (name : string) (value : Z) := define name (intValue value).
Definition fs_Bool (name : string) (value : bool) := define name (boolValue value).

Definition get_string (fs : FlagSet) (p : string) : string :=
  match formal fs !! p with Some (stringValue s) => s | _ => "" end.
Definition get_int (fs : FlagSet) (p : string) : Z :=
  match formal fs !! p with Some (intValue i) => i | _ => 0 end.
Definition get_bool (fs : FlagSet) (p : string) : bool :=
  match formal fs !! p with Some (boolValue b) => b | _ => false end.

(** [fs.Args()] *)
Definition fs_Args (fs : FlagSet) : list string := fs_args fs.

(** [fs.Arg(i)]: the i'th remaining argument, the empty string when there
    is none. *)
Definition fs_Arg (fs : FlagSet) (i : Z) : string :=
  if (i <? 0) || (i >=? Z.of_nat (length (fs_args fs))) then ""
  else nth (Z.to_nat i) (fs_args fs) "".

(** Modelled from the spec: [ed25519.PublicKeySize], a constant of package
    crypto/ed25519, which is not part of block.go; a public key has 32
    bytes, the length the message of [newBlock] asks for. *)
Definition ed25519_PublicKeySize : Z := 32.

(** [len] of a slice. *)
Definition len {A} (l : list A) : Z := Z.of_nat (length l).

(** ** The types of the imported packages *)

Class Types := {
  Time : Type;            (* time.Time *)
  Hash : Type;            (* bc.Hash *)
  Tx : Type;              (* bc.Tx *)
  CommitmentsTx : Type;   (* bc.CommitmentsTx *)
  Snapshot : Type;        (* state.Snapshot *)
  BlockBuilder : Type     (* protocol.BlockBuilder *)
}.

Section Program.
Context {T : Types}.

(** [bc.Predicate] *)
Record Predicate := {
  Predicate_Version : Z;
  Quorum : Z;
  Pubkeys : list bytes
}.

(** [bc.BlockHeader], the fields [header -pretty] prints. *)
Record BlockHeader := {
  Version : Z;
  Height : Z;
  PreviousBlockId : option Hash;
  TimestampMs : Z;
  Runlimit : Z;
  RefsCount : Z;
  TransactionsRoot : Hash;
  ContractsRoot : Hash;
  NoncesRoot : Hash;
  NextPredicate : Predicate
}.

(** [bc.UnsignedBlock] embeds the header. *)
Record UnsignedBlock := {
  Header : BlockHeader;
  Transactions : list Tx
}.

(** [bc.Block] embeds the unsigned block; [Arguments] holds one slot per
    public key of the previous block's predicate, a signature or nothing. *)
Record Block := {
  Unsigned : UnsignedBlock;
  Arguments : list (option bytes)
}.

(** [bc.RawTx] *)
Record RawTx := {
  Program : bytes;
  RawTx_Version : Z;
  RawTx_Runlimit : Z
}.

(** The functions of the imported packages.  A Go function returning
    [(T, error)] returns the pair of both results here. *)
Class Packages := {
  (* flag *)
  flag_Parse : FlagSet -> list string -> FlagSet * option error;
  (* encoding/hex *)
  hex_DecodeString : string -> bytes * option error;
  (* time *)
  RFC3339 : string;
  time_Parse : string -> string -> Time * option error;
  (* proto *)
  proto_Unmarshal_BlockHeader : bytes -> BlockHeader * option error;
  proto_Unmarshal_RawTx : bytes -> RawTx * option error;
  (* crypto/ed25519 *)
  ed25519_Sign : bytes -> bytes -> bytes;
  (* protocol/bc *)
  bc_Millis : Time -> Z;
  bc_NewTx : bytes -> Z -> Z -> Tx * option error;
  bc_NewCommitmentsTx : Tx -> CommitmentsTx;
  Block_FromBytes : bytes -> Block * option error;
  Block_Bytes : Block -> bytes * option error;
  BlockHeader_Hash : BlockHeader -> Hash;
  Hash_Bytes : Hash -> bytes;
  (* protocol/state *)
  Snapshot_FromBytes : bytes -> Snapshot * option error;
  Snapshot_Bytes : Snapshot -> bytes * option error;
  (* protocol *)
  protocol_NewBlockBuilder : BlockBuilder;
  BlockBuilder_Start : BlockBuilder -> Snapshot -> Z -> BlockBuilder * option error;
  BlockBuilder_AddTx : BlockBuilder -> CommitmentsTx -> BlockBuilder * option error;
  BlockBuilder_Build : BlockBuilder -> UnsignedBlock * Snapshot * option error;
  protocol_NewInitialBlock : list bytes -> Z -> Time -> Block * option error;
  (* protocol/validation *)
  validation_Block : UnsignedBlock -> BlockHeader -> option error;
  validation_BlockSig : Block -> Predicate -> option error;
  validation_BlockOnly : UnsignedBlock -> option error
}.

Context {P : Packages}.

(** ** The process *)

(** The calls into txvm's packages that a run records. *)
Inductive call :=
| Call_Start (bb : BlockBuilder) (snapshot : Snapshot) (timestampMS : Z)
| Call_AddTx (bb : BlockBuilder) (tx : CommitmentsTx)
| Call_Build (bb : BlockBuilder)
| Call_NewInitialBlock (pubkeys : list bytes) (quorum : Z) (ts : Time)
| Call_Block (ub : UnsignedBlock) (prev : BlockHeader)
| Call_BlockSig (b : Block) (pred : Predicate)
| Call_BlockOnly (ub : UnsignedBlock).

Record world := {
  w_stdin : bytes;                 (* what os.Stdin holds *)
  w_stdin_err : option error;      (* the error reading it gives, if any *)
  w_now : Time;                    (* the clock *)
  w_files : gmap string bytes;     (* the files, by name *)
  w_readonly : gset string;        (* names that cannot be written *)
  w_stdout : bytes;                (* written to os.Stdout *)
  w_stderr : string;               (* written to os.Stderr *)
  w_calls : list call              (* the recorded calls, oldest first *)
}.

(** How a run, or a part of one, ends. *)
Inductive outcome (A : Type) :=
| Ret (a : A)
| Panic (e : error)
| Exit (code : Z).
Global Arguments Ret {A} a.
Global Arguments Panic {A} e.
Global Arguments Exit {A} code.

Definition M (A : Type) : Type := world -> outcome A * world.

Global Instance M_ret : MRet M := λ A a w, (Ret a, w).
Global Instance M_bind : MBind M := λ A B f m w,
  match m w with
  | (Ret a, w') => f a w'
  | (Panic e, w') => (Panic e, w')
  | (Exit c, w') => (Exit c, w')
  end.

Definition panic {A} (e : error) : M A := λ w, (Panic e, w).
Definition os_Exit {A} (code : Z) : M A := λ w, (Exit code, w).

(** [must] of block.go. *)
Definition must (err : option error) : M unit :=
  match err with
  | Some e => panic e
  | None => mret tt
  end.

Definition record (c : call) : M unit := λ w,
  (Ret tt, {| w_stdin := w_stdin w; w_stdin_err := w_stdin_err w;
              w_now := w_now w; w_files := w_files w;
              w_readonly := w_readonly w; w_stdout := w_stdout w;
              w_stderr := w_stderr w; w_calls := w_calls w ++ [c] |}).

(** [fmt.Fprintln(os.Stderr, s)] *)
Definition Fprintln_Stderr (s : string) : M unit := λ w,
  (Ret tt, {| w_stdin := w_stdin w; w_stdin_err := w_stdin_err w;
              w_now := w_now w; w_files := w_files w;
              w_readonly := w_readonly w; w_stdout := w_stdout w;
              w_stderr := w_stderr w +:+ s +:+ newline;
              w_calls := w_calls w |}).

(** [os.Stdout.Write(b)] *)
Definition os_Stdout_Write (b : bytes) : M unit := λ w,
  (Ret tt, {| w_stdin := w_stdin w; w_stdin_err := w_stdin_err w;
              w_now := w_now w; w_files := w_files w;
              w_readonly := w_readonly w; w_stdout := w_stdout w ++ b;
              w_stderr := w_stderr w; w_calls := w_calls w |}).

(** [ioutil.ReadAll(os.Stdin)] *)
Definition ioutil_ReadAll_Stdin : M (bytes * option error) := λ w,
  (Ret (w_stdin w, w_stdin_err w), w).

(** [ioutil.ReadFile(name)] *)
Definition ioutil_ReadFile (name : string) : M (bytes * option error) := λ w,
  match w_files w !! name with
  | Some b => (Ret (b, None), w)
  | None => (Ret ([], Some ("open " +:+ name +:+ ": no such file or directory")), w)
  end.

(** [ioutil.WriteFile(name, data, 0644)] *)
Definition ioutil_WriteFile (name : string) (data : bytes) : M (option error) := λ w,
  if decide (name ∈ w_readonly w)
  then (Ret (Some ("open " +:+ name +:+ ": permission denied")), w)
  else (Ret None,
        {| w_stdin := w_stdin w; w_stdin_err := w_stdin_err w;
           w_now := w_now w; w_files := <[name := data]> (w_files w);
           w_readonly := w_readonly w; w_stdout := w_stdout w;
           w_stderr := w_stderr w; w_calls := w_calls w |}).

(** [time.Now()] *)
Definition time_Now : M Time := λ w, (Ret (w_now w), w).

(** ** validate *)

(** [if err != nil { fmt.Fprintln(os.Stderr, err); os.Exit(1) }] *)
Definition exit_if (err : option error) : M unit :=
  match err with
  | Some e => Fprintln_Stderr e;; os_Exit 1
  | None => mret tt
  end.

Definition validate (args : list string) : M unit :=
  let fs := NewFlagSet "validate" in
  let prevHex := "prev" in let fs := fs_String prevHex "" fs in
  let noSig := "nosig" in let fs := fs_Bool noSig false fs in
  let noPrev := "noprev" in let fs := fs_Bool noPrev false fs in
  let '(fs, err) := flag_Parse fs args in
  must err;;
  '(inp, err) ← ioutil_ReadAll_Stdin;
  must err;;
  let '(b, err) := Block_FromBytes inp in
  exit_if err;;
  if negb (String.eqb (get_string fs prevHex) "") then
    let '(prevBytes, err) := hex_DecodeString (get_string fs prevHex) in
    must err;;
    let '(prev, err) := proto_Unmarshal_BlockHeader prevBytes in
    must err;;
    record (Call_Block (Unsigned b) prev);;
    exit_if (validation_Block (Unsigned b) prev);;
    if negb (get_bool fs noSig) then
      record (Call_BlockSig b (NextPredicate prev));;
      exit_if (validation_BlockSig b (NextPredicate prev))
    else mret tt
  else if (Height (Header (Unsigned b)) =? 1) || get_bool fs noPrev then
    record (Call_BlockOnly (Unsigned b));;
    exit_if (validation_BlockOnly (Unsigned b))
  else
    Fprintln_Stderr "previous blockheader not supplied";;
    os_Exit 1.

(** ** build *)

(** The loop of [build] over [fs.Args()]: each argument names a file that
    holds a transaction. *)
Fixpoint addTxs (bb : BlockBuilder) (args : list string) : M BlockBuilder :=
  match args with
  | [] => mret bb
  | arg :: args =>
      '(txbits, err) ← ioutil_ReadFile arg;
      must err;;
      let '(rawTx, err) := proto_Unmarshal_RawTx txbits in
      must err;;
      let '(tx, err) :=
        bc_NewTx (Program rawTx) (RawTx_Version rawTx) (RawTx_Runlimit rawTx) in
      must err;;
      record (Call_AddTx bb (bc_NewCommitmentsTx tx));;
      let '(bb, err) := BlockBuilder_AddTx bb (bc_NewCommitmentsTx tx) in
      must err;;
      addTxs bb args
  end.

Definition build (args : list string) : M unit :=
  let fs := NewFlagSet "build" in
  let timeStr := "time" in let fs := fs_String timeStr "" fs in
  let snapOut := "snapout" in let fs := fs_String snapOut "" fs in
  let '(fs, err) := flag_Parse fs args in
  must err;;
  ts ← (if String.eqb (get_string fs timeStr) "" then time_Now
        else
          let '(ts, err) := time_Parse RFC3339 (get_string fs timeStr) in
          must err;; mret ts);
  let timestampMS := bc_Millis ts in
  let bb := protocol_NewBlockBuilder in
  '(snapshotBits, err) ← ioutil_ReadAll_Stdin;
  must err;;
  let '(snapshot, err) := Snapshot_FromBytes snapshotBits in
  must err;;
  record (Call_Start bb snapshot timestampMS);;
  let '(bb, err) := BlockBuilder_Start bb snapshot timestampMS in
  must err;;
  bb ← addTxs bb (fs_Args fs);
  record (Call_Build bb);;
  let '(ub, newSnapshot, err) := BlockBuilder_Build bb in
  must err;;
  (if negb (String.eqb (get_string fs snapOut) "") then
     let '(newSnapshotBytes, err) := Snapshot_Bytes newSnapshot in
     err ← ioutil_WriteFile (get_string fs snapOut) newSnapshotBytes;
     must err
   else mret tt);;
  let b := {| Unsigned := ub; Arguments := [] |} in
  let '(bbytes, err) := Block_Bytes b in
  must err;;
  os_Stdout_Write bbytes.

(** ** new *)

(** The loop of [newBlock] over the hex public keys. *)
Fixpoint decodePubkeys (pubkeysHex : list string) (pubkeys : list bytes)
  : M (list bytes) :=
  match pubkeysHex with
  | [] => mret pubkeys
  | pubkeyHex :: pubkeysHex =>
      let '(b, err) := hex_DecodeString pubkeyHex in
      must err;;
      if negb (len b =? ed25519_PublicKeySize) then
        panic ("bad pubkey length " +:+ itoa (len b) +:+ ", want 32")
      else decodePubkeys pubkeysHex (pubkeys ++ [b])
  end.

Definition newBlock (args : list string) : M unit :=
  let fs := NewFlagSet "new" in
  let quorum := "quorum" in let fs := fs_Int quorum 0 fs in
  let timeStr := "time" in let fs := fs_String timeStr "" fs in
  let '(fs, err) := flag_Parse fs args in
  must err;;
  let pubkeysHex := fs_Args fs in
  pubkeys ← decodePubkeys pubkeysHex [];
  let q := get_int fs quorum in
  if (q <? 0) || (q >? len pubkeys) then
    panic ("-quorum must be between 1 and " +:+ itoa (len pubkeys))
  else
    (* There may be zero pubkeys, in which case the quorum remains zero. *)
    let q := if q =? 0 then len pubkeys else q in
    ts ← (if String.eqb (get_string fs timeStr) "" then time_Now
          else
            let '(ts, err) := time_Parse RFC3339 (get_string fs timeStr) in
            must err;; mret ts);
    record (Call_NewInitialBlock pubkeys q ts);;
    let '(block, err) := protocol_NewInitialBlock pubkeys q ts in
    must err;;
    let '(blockBytes, err) := Block_Bytes block in
    must err;;
    os_Stdout_Write blockBytes.

(** ** sign *)

(** Modelled from the spec: [bc.SignBlock], of package protocol/bc, which is
    not part of block.go.  For each index of the previous predicate's public
    keys it invokes the callback; what the callback returns fills the slot
    of that index, a nil value leaving it absent.  The indices are taken in
    increasing order, and an error of the callback is returned. *)
Fixpoint signSlots (f : Z -> M (option bytes * option error)) (idxs : list Z)
    (slots : list (option bytes)) : M (list (option bytes) * option error) :=
  match idxs with
  | [] => mret (slots, None)
  | idx :: idxs =>
      '(sig, err) ← f idx;
      match err with
      | Some e => mret (slots, Some e)
      | None => signSlots f idxs (slots ++ [sig])
      end
  end.

Definition bc_SignBlock (b : UnsignedBlock) (prev : BlockHeader)
    (f : Z -> M (option bytes * option error)) : M (Block * option error) :=
  '(slots, err) ← signSlots f (Z.of_nat <$> seq 0 (length (Pubkeys (NextPredicate prev)))) [];
  mret ({| Unsigned := b; Arguments := slots |}, err).

(** [block.Hash()]: the method of the embedded header. *)
Definition Block_Hash (b : Block) : Hash := BlockHeader_Hash (Header (Unsigned b)).

(** The callback [sign] gives to [bc.SignBlock]; it closes over the flag set
    and over the hash of the block. *)
Definition signer (fs : FlagSet) (hash : bytes) (idx : Z)
  : M (option bytes * option error) :=
  let arg := fs_Arg fs idx in
  if negb (String.eqb arg "") then
    let '(prv, err) := hex_DecodeString arg in
    must err;;
    mret (Some (ed25519_Sign prv hash), None)
  else mret (None, None).

Definition sign (args : list string) : M unit :=
  let fs := NewFlagSet "sign" in
  let prevHex := "prev" in let fs := fs_String prevHex "" fs in
  let '(fs, err) := flag_Parse fs args in
  must err;;
  let '(prevBytes, err) := hex_DecodeString (get_string fs prevHex) in
  must err;;
  let '(prev, err) := proto_Unmarshal_BlockHeader prevBytes in
  must err;;
  '(blockBytes, err) ← ioutil_ReadAll_Stdin;
  must err;;
  let '(block, err) := Block_FromBytes blockBytes in
  must err;;
  let hash := Hash_Bytes (Block_Hash block) in
  '(block, err) ← bc_SignBlock (Unsigned block) prev (signer fs hash);
  must err;;
  let '(blockBytes, err) := Block_Bytes block in
  must err;;
  os_Stdout_Write blockBytes.

(** ** The flag sets of the modes, before parsing *)

Definition validateFlags : FlagSet :=
  fs_Bool "noprev" false (fs_Bool "nosig" false (fs_String "prev" "" (NewFlagSet "validate"))).
Definition signFlags : FlagSet := fs_String "prev" "" (NewFlagSet "sign").
Definition newFlags : FlagSet :=
  fs_String "time" "" (fs_Int "quorum" 0 (NewFlagSet "new")).
Definition buildFlags : FlagSet :=
  fs_String "snapout" "" (fs_String "time" "" (NewFlagSet "build")).

(** The timestamp [build] and [newBlock] take: the clock's, or the one
    [-time] gives. *)
Definition blockTime (fs : FlagSet) (w : world) : Time * option error :=
  if String.eqb (get_string fs "time") "" then (w_now w, None)
  else time_Parse RFC3339 (get_string fs "time").

(** [k] is the public key the argument [h] of [new] stands for. *)
Definition pubkeyOf (h : string) (k : bytes) : Prop :=
  hex_DecodeString h = (k, None) /\ len k = ed25519_PublicKeySize.

(** What [sign] puts into the slot of index [idx]: nothing when there is no
    argument at [idx], and else the signature of [hash] with the key the
    argument holds. *)
Definition slotOf (fs : FlagSet) (hash : bytes) (idx : Z) : option bytes :=
  if String.eqb (fs_Arg fs idx) "" then None
  else Some (ed25519_Sign (fst (hex_DecodeString (fs_Arg fs idx))) hash).

(** The end of [sign] and [build]: serialize the block and write it. *)
Definition writeBlock (b : Block) : M unit :=
  let '(blockBytes, err) := Block_Bytes b in
  must err;;
  os_Stdout_Write blockBytes.

(** The transaction [build] hands to [AddTx] for the argument [arg]: the one
    the file of that name holds. *)
Definition fileTx (w : world) (arg : string) : option CommitmentsTx :=
  match w_files w !! arg with
  | None => None
  | Some txbits =>
      match proto_Unmarshal_RawTx txbits with
      | (rawTx, None) =>
          match bc_NewTx (Program rawTx) (RawTx_Version rawTx) (RawTx_Runlimit rawTx) with
          | (tx, None) => Some (bc_NewCommitmentsTx tx)
          | (_, Some _) => None
          end
      | (_, Some _) => None
      end
  end.

(** The transactions of the recorded [AddTx] calls, and the builders of the
    recorded [Build] calls, in the order of the calls. *)
Definition addedTxs (calls : list call) : list CommitmentsTx :=
  omap (fun c => match c with Call_AddTx _ tx => Some tx | _ => None end) calls.
Definition builtFrom (calls : list call) : list BlockBuilder :=
  omap (fun c => match c with Call_Build bb => Some bb | _ => None end) calls.

(** The process [w] after recording the calls [cs]. *)
Definition add_calls (w : world) (cs : list call) : world :=
  {| w_stdin := w_stdin w; w_stdin_err := w_stdin_err w; w_now := w_now w;
     w_files := w_files w; w_readonly := w_readonly w; w_stdout := w_stdout w;
     w_stderr := w_stderr w; w_calls := w_calls w ++ cs |}.

(** Two processes that [build] cannot tell apart when the time is given:
    the same standard input, the same content in each of the files [paths],
    the file [out] writable in both or in neither, and the same output so
    far.  The clocks and all other files may differ. *)
Definition agree (paths : list string) (out : string) (w1 w2 : world) : Prop :=
  w_stdin w1 = w_stdin w2 /\
  w_stdin_err w1 = w_stdin_err w2 /\
  Forall (fun p => w_files w1 !! p = w_files w2 !! p) paths /\
  (out ∈ w_readonly w1 <-> out ∈ w_readonly w2) /\
  w_stdout w1 = w_stdout w2 /\
  w_stderr w1 = w_stderr w2 /\
  w_calls w1 = w_calls w2.

(** The calls a completed loop of [build] records, from the builder [bb] to
    the builder [bb'] the loop ends with. *)
Inductive added : BlockBuilder -> list CommitmentsTx -> list call -> BlockBuilder -> Prop :=
| added_nil bb : added bb [] [] bb
| added_cons bb tx bb' txs cs bb'' :
    BlockBuilder_AddTx bb tx = (bb', None) ->
    added bb' txs cs bb'' ->
    added bb (tx :: txs) (Call_AddTx bb tx :: cs) bb''.

(** A program that runs alike in processes that agree, and keeps them in
    agreement. *)
Definition sim (paths : list string) (out : string) {A : Type} (m : M A) : Prop :=
  forall w1 w2, agree paths out w1 w2 ->
    fst (m w1) = fst (m w2) /\ agree paths out (snd (m w1)) (snd (m w2)).

(** The packages with the error [Snapshot.Bytes] returns replaced by nil. *)
Definition Snapshot_Bytes_error_dropped : Packages := {|
  flag_Parse := flag_Parse;
  hex_DecodeString := hex_DecodeString;
  RFC3339 := RFC3339;
  time_Parse := time_Parse;
  proto_Unmarshal_BlockHeader := proto_Unmarshal_BlockHeader;
  proto_Unmarshal_RawTx := proto_Unmarshal_RawTx;
  ed25519_Sign := ed25519_Sign;
  bc_Millis := bc_Millis;
  bc_NewTx := bc_NewTx;
  bc_NewCommitmentsTx := bc_NewCommitmentsTx;
  Block_FromBytes := Block_FromBytes;
  Block_Bytes := Block_Bytes;
  BlockHeader_Hash := BlockHeader_Hash;
  Hash_Bytes := Hash_Bytes;
  Snapshot_FromBytes := Snapshot_FromBytes;
  Snapshot_Bytes := fun s => (fst (Snapshot_Bytes s), None);
  protocol_NewBlockBuilder := protocol_NewBlockBuilder;
  BlockBuilder_Start := BlockBuilder_Start;
  BlockBuilder_AddTx := BlockBuilder_AddTx;
  BlockBuilder_Build := BlockBuilder_Build;
  protocol_NewInitialBlock := protocol_NewInitialBlock;
  validation_Block := validation_Block;
  validation_BlockSig := validation_BlockSig;
  validation_BlockOnly := validation_BlockOnly
|}.

End Program.

(** ** A small instance of the packages

    Enough of each imported package to run the command on concrete inputs:
    one byte holds a number (a number above 255 cannot be written), a block
    is its height followed by its signature slots, a header is its height,
    the quorum and one-byte keys, and a signature is the key followed by the
    message. *)
Module Toy.

Definition byte_of_Z (z : Z) : Byte.byte :=
  match Byte.of_N (Z.to_N z) with Some b => b | None => Byte.x00 end.
Definition Z_of_byte (b : Byte.byte) : Z := Z.of_N (Byte.to_N b).

Definition fromHexChar (c : Ascii.ascii) : option Z :=
  let n := Z.of_N (Ascii.N_of_ascii c) in
  if (48 <=? n) && (n <=? 57) then Some (n - 48)
  else if (97 <=? n) && (n <=? 102) then Some (n - 87)
  else if (65 <=? n) && (n <=? 70) then Some (n - 55)
  else None.

Fixpoint DecodeString (s : string) : bytes * option error :=
  match s with
  | EmptyString => ([], None)
  | String _ EmptyString => ([], Some "encoding/hex: odd length hex string")
  | String a (String b s) =>
      match fromHexChar a, fromHexChar b with
      | Some x, Some y =>
          let '(bs, err) := DecodeString s in (byte_of_Z (16 * x + y) :: bs, err)
      | _, _ => ([], Some "encoding/hex: invalid byte")
      end
  end.

Definition flagName (s : string) : option string :=
  match s with
  | String "-"%char (String "-"%char EmptyString) => None
  | String "-"%char (String "-"%char name) => Some name
  | String "-"%char EmptyString => None
  | String "-"%char name => Some name
  | _ => None
  end.

Definition setFlag (name : string) (v : Value) (fs : FlagSet) : FlagSet :=
  {| fs_name := fs_name fs; formal := <[name := v]> (formal fs);
     fs_args := fs_args fs |}.

Definition setArgs (args : list string) (fs : FlagSet) : FlagSet :=
  {| fs_name := fs_name fs; formal := formal fs; fs_args := args |}.

(** Flags come first, as [-name] for a boolean flag and [-name value] for
    the others; the first argument that is not a flag ends them. *)
Fixpoint Parse (fs : FlagSet) (args : list string) : FlagSet * option error :=
  match args with
  | [] => (setArgs [] fs, None)
  | s :: rest =>
      match flagName s with
      | None => (setArgs (s :: rest) fs, None)
      | Some name =>
          match formal fs !! name with
          | None => (fs, Some ("flag provided but not defined: -" +:+ name))
          | Some (boolValue _) => Parse (setFlag name (boolValue true) fs) rest
          | Some v =>
              match rest with
              | [] => (fs, Some ("flag needs an argument: -" +:+ name))
              | value :: rest =>
                  match v with
                  | intValue _ =>
                      match NilZero.int_of_string value with
                      | Some i => Parse (setFlag name (intValue (Z.of_int i)) fs) rest
                      | None => (fs, Some ("invalid value for flag -" +:+ name))
                      end
                  | _ => Parse (setFlag name (stringValue value) fs) rest
                  end
              end
          end
      end
  end.

Record snapshot := { s_time : Z; s_height : Z; s_txs : list bytes }.
Record builder := { b_snap : snapshot; b_time : Z; b_leaves : list bytes }.

#[global] Instance types : Types := {|
  Time := Z; Hash := bytes; Tx := bytes; CommitmentsTx := bytes;
  Snapshot := snapshot; BlockBuilder := builder
|}.

Definition header (height quorum : Z) (keys : list bytes) : BlockHeader := {|
  Version := 3; Height := height; PreviousBlockId := None; TimestampMs := 0;
  Runlimit := 0; RefsCount := 0; TransactionsRoot := []; ContractsRoot := [];
  NoncesRoot := [];
  NextPredicate := {| Predicate_Version := 1; Quorum := quorum; Pubkeys := keys |}
|}.

Definition block (height : Z) (slots : list (option bytes)) : Block :=
  {| Unsigned := {| Header := header height 0 []; Transactions := [] |};
     Arguments := slots |}.

Definition slotBytes (slot : option bytes) : bytes :=
  match slot with
  | Some sig => byte_of_Z (len sig) :: sig
  | None => [Byte.x00]
  end.

Definition signed (slots : list (option bytes)) : Z :=
  len (filter is_Some slots).

#[global] Instance packages : Packages := {|
  flag_Parse := Parse;
  hex_DecodeString := DecodeString;
  RFC3339 := "2006-01-02T15:04:05Z07:00";
  time_Parse := λ _ value,
    if String.eqb value "1970-01-01T00:00:00.1Z" then (100, None)
    else if String.eqb value "1970-01-01T00:00:01Z" then (1000, None)
    else (0, Some ("parsing time " +:+ value));
  proto_Unmarshal_BlockHeader := λ bs,
    match bs with
    | height :: quorum :: keys =>
        (header (Z_of_byte height) (Z_of_byte quorum) ((λ k, [k]) <$> keys), None)
    | _ => (header 0 0 [], Some "proto: unexpected EOF")
    end;
  proto_Unmarshal_RawTx := λ bs,
    match bs with
    | [] => ({| Program := []; RawTx_Version := 0; RawTx_Runlimit := 0 |},
             Some "proto: unexpected EOF")
    | _ => ({| Program := bs; RawTx_Version := 3; RawTx_Runlimit := len bs |}, None)
    end;
  ed25519_Sign := λ prv msg, prv ++ msg;
  bc_Millis := λ t, t;
  bc_NewTx := λ program version runlimit,
    if version =? 3 then (program, None) else ([], Some "unknown tx version");
  bc_NewCommitmentsTx := λ tx, tx;
  Block_FromBytes := λ bs,
    match bs with
    | height :: _ => (block (Z_of_byte height) [], None)
    | [] => (block 0 [], Some "proto: unexpected EOF")
    end;
  Block_Bytes := λ b,
    (byte_of_Z (Height (Header (Unsigned b))) :: concat (slotBytes <$> Arguments b),
     None);
  BlockHeader_Hash := λ bh, [byte_of_Z (Height bh)];
  Hash_Bytes := λ h, h;
  Snapshot_FromBytes := λ bs,
    match bs with
    | [t; h] => ({| s_time := Z_of_byte t; s_height := Z_of_byte h; s_txs := [] |}, None)
    | _ => ({| s_time := 0; s_height := 0; s_txs := [] |}, Some "proto: unexpected EOF")
    end;
  Snapshot_Bytes := λ s,
    if s_time s <? 256
    then (byte_of_Z (s_time s) :: byte_of_Z (s_height s) :: concat (s_txs s), None)
    else ([], Some "proto: value does not fit");
  protocol_NewBlockBuilder :=
    {| b_snap := {| s_time := 0; s_height := 0; s_txs := [] |}; b_time := 0;
       b_leaves := [] |};
  BlockBuilder_Start := λ bb s timestampMS,
    if timestampMS <=? s_time s
    then (bb, Some "timestamp is not after the snapshot")
    else ({| b_snap := s; b_time := timestampMS; b_leaves := [] |}, None);
  BlockBuilder_AddTx := λ bb tx,
    ({| b_snap := {| s_time := s_time (b_snap bb); s_height := s_height (b_snap bb);
                     s_txs := s_txs (b_snap bb) ++ [tx] |};
        b_time := b_time bb; b_leaves := b_leaves bb ++ [tx] |}, None);
  BlockBuilder_Build := λ bb,
    ({| Header := header (s_height (b_snap bb) + 1) 0 [];
        Transactions := b_leaves bb |},
     {| s_time := b_time bb; s_height := s_height (b_snap bb) + 1;
        s_txs := s_txs (b_snap bb) |}, None);
  protocol_NewInitialBlock := λ pubkeys quorum ts,
    ({| Unsigned := {| Header := header 1 quorum pubkeys; Transactions := [] |};
        Arguments := [] |}, None);
  validation_Block := λ ub prev,
    if Height (Header ub) =? Height prev + 1 then None
    else Some "wrong height";
  validation_BlockSig := λ b pred,
    if Quorum pred <=? signed (Arguments b) then None
    else Some "too few signatures";
  validation_BlockOnly := λ ub,
    if 0 <=? Runlimit (Header ub) then None else Some "negative runlimit"
|}.

(** A process with the given standard input and files, at time 200 ms. *)
Definition start (stdin : bytes) (files : gmap string bytes) : world := {|
  w_stdin := stdin; w_stdin_err := None; w_now := 200; w_files := files;
  w_readonly := ∅; w_stdout := []; w_stderr := ""; w_calls := []
|}.

(** Two public keys, in hex. *)
Definition keyA : string :=
  "0101010101010101010101010101010101010101010101010101010101010101".
Definition keyB : string :=
  "0202020202020202020202020202020202020202020202020202020202020202".

End Toy.

(** * The modes hash, header and tx, and main

    These modes read a [bc.RawBlock].  What they need of the imported
    packages beyond [Packages] is the class [MorePackages]. *)

(** [hex.EncodeToString], and [%x] of [fmt] on a byte slice: two lower-case
    hex digits for each byte. *)
Definition hexDigit (n : N) : ascii :=
  nth (N.to_nat n) (list_ascii_of_string "0123456789abcdef") "0"%char.

Definition hex_EncodeToString (b : bytes) : string :=
  fold_right
    (fun x s => String (hexDigit (Byte.to_N x / 16))
                  (String (hexDigit (Byte.to_N x mod 16)) s))
    EmptyString b.

(** [strings.Join] *)
Definition strings_Join (elems : list string) (sep : string) : string :=
  String.concat sep elems.

Section Modes.
Context {T : Types}.

(** [bc.RawBlock]; the header is a pointer, nil when the message has
    none. *)
Record RawBlock := {
  RawBlock_Header : option BlockHeader;
  RawBlock_Transactions : list RawTx
}.

Class MorePackages := {
  (* proto *)
  proto_Unmarshal_RawBlock : bytes -> RawBlock * option error;
  proto_Marshal_BlockHeader : option BlockHeader -> bytes * option error;
  proto_Marshal_RawTx : RawTx -> bytes * option error;
  (* strconv *)
  strconv_Atoi : string -> Z * option error;
  (* protocol/bc: what [Hash] does when called on a nil header *)
  nil_BlockHeader_Hash : outcome Hash
}.

Context {P : Packages} {Q : MorePackages}.

(** [fmt.Printf], with the text the format and its arguments make. *)
Definition fmt_Printf (s : string) : M unit :=
  os_Stdout_Write (list_byte_of_string s).

(** [l[i]]: a Go index expression panics out of range. *)
Definition index {A : Type} (l : list A) (i : Z) : M A :=
  if (i <? 0) || (i >=? len l) then panic "runtime error: index out of range"
  else
    match l !! Z.to_nat i with
    | Some a => mret a
    | None => panic "runtime error: index out of range"
    end.

(** [l[i:]] *)
Definition slice_from {A : Type} (l : list A) (i : Z) : M (list A) :=
  if (i <? 0) || (i >? len l) then panic "runtime error: slice bounds out of range"
  else mret (drop (Z.to_nat i) l).

(** Reading a field through a pointer: nil panics. *)
Definition deref {A : Type} (p : option A) : M A :=
  match p with
  | Some a => mret a
  | None => panic "runtime error: invalid memory address or nil pointer dereference"
  end.

(** [bh.Hash()] on a pointer to a header. *)
Definition ptr_Hash (bh : option BlockHeader) : M Hash :=
  match bh with
  | Some bh => mret (BlockHeader_Hash bh)
  | None => fun w => (nil_BlockHeader_Hash, w)
  end.

Definition usage {A : Type} : M A :=
  Fprintln_Stderr "Usage:";;
  Fprintln_Stderr "  block validate [-prev PREVHEX] [-nosig] [-noprev] <BLOCK";;
  Fprintln_Stderr "  block hash <BLOCK_OR_HEADER";;
  Fprintln_Stderr "  block header [-pretty] <BLOCK";;
  Fprintln_Stderr "  block tx [-raw] [-pretty] INDEX <BLOCK";;
  Fprintln_Stderr "  block new [-quorum QUORUM] [-time TIME] PUBKEYHEX PUBKEYHEX ... >BLOCK";;
  Fprintln_Stderr "  block build [-time TIME] [-snapout FILE] TXFILE TXFILE ... <SNAPSHOT >BLOCK";;
  Fprintln_Stderr "  block sign -prev PREVHEX PRVHEX PRVHEX ... <BLOCK >BLOCK";;
  os_Exit 1.

Definition hash (_ : list string) : M unit :=
  '(inp, err) ← ioutil_ReadAll_Stdin;
  must err;;
  let '(rb, err) := proto_Unmarshal_RawBlock inp in
  bh ← match err with
       | Some _ =>
           let '(bh, err) := proto_Unmarshal_BlockHeader inp in
           must err;; mret (Some bh)
       | None => mret (RawBlock_Header rb)
       end;
  h ← ptr_Hash bh;
  os_Stdout_Write (Hash_Bytes h).

Definition header (args : list string) : M unit :=
  let fs := NewFlagSet "header" in
  let pretty := "pretty" in let fs := fs_Bool pretty false fs in
  let '(fs, err) := flag_Parse fs args in
  must err;;
  '(inp, err) ← ioutil_ReadAll_Stdin;
  must err;;
  let '(rb, err) := proto_Unmarshal_RawBlock inp in
  must err;;
  if get_bool fs pretty then
    bh ← deref (RawBlock_Header rb);
    let pubkeys := hex_EncodeToString <$> Pubkeys (NextPredicate bh) in
    fmt_Printf ("Version: " +:+ itoa (Version bh) +:+ newline);;
    fmt_Printf ("Height: " +:+ itoa (Height bh) +:+ newline);;
    match PreviousBlockId bh with
    | Some id =>
        fmt_Printf ("PreviousBlockId: " +:+ hex_EncodeToString (Hash_Bytes id) +:+ newline)
    | None => fmt_Printf ("PreviousBlockId: nil" +:+ newline)
    end;;
    fmt_Printf ("TimestampMs: " +:+ itoa (TimestampMs bh) +:+ newline);;
    fmt_Printf ("Runlimit: " +:+ itoa (Runlimit bh) +:+ newline);;
    fmt_Printf ("RefsCount: " +:+ itoa (RefsCount bh) +:+ newline);;
    fmt_Printf ("TransactionsRoot: " +:+
                hex_EncodeToString (Hash_Bytes (TransactionsRoot bh)) +:+ newline);;
    fmt_Printf ("ContractsRoot: " +:+
                hex_EncodeToString (Hash_Bytes (ContractsRoot bh)) +:+ newline);;
    fmt_Printf ("NoncesRoot: " +:+
                hex_EncodeToString (Hash_Bytes (NoncesRoot bh)) +:+ newline);;
    fmt_Printf ("NextPredicate.Version: " +:+
                itoa (Predicate_Version (NextPredicate bh)) +:+ newline);;
    fmt_Printf ("NextPredicate.Quorum: " +:+
                itoa (Quorum (NextPredicate bh)) +:+ newline);;
    fmt_Printf ("NextPredicate.Pubkeys: " +:+ strings_Join pubkeys " " +:+ newline);;
    fmt_Printf ("Transactions: " +:+ itoa (len (RawBlock_Transactions rb)) +:+ newline)
  else
    let '(headerBytes, err) := proto_Marshal_BlockHeader (RawBlock_Header rb) in
    must err;;
    os_Stdout_Write headerBytes.

Definition tx (args : list string) : M unit :=
  let fs := NewFlagSet "tx" in
  let raw := "raw" in let fs := fs_Bool raw false fs in
  let pretty := "pretty" in let fs := fs_Bool pretty false fs in
  let '(fs, err) := flag_Parse fs args in
  must err;;
  let args := fs_Args fs in
  (if len args <? 1 then usage else mret tt);;
  arg0 ← index args 0;
  let '(idx, err) := strconv_Atoi arg0 in
  must err;;
  (if idx <? 0 then panic "index out of range" else mret tt);;
  '(inp, err) ← ioutil_ReadAll_Stdin;
  must err;;
  let '(rb, err) := proto_Unmarshal_RawBlock inp in
  must err;;
  (if idx >=? len (RawBlock_Transactions rb) then panic "index out of range"
   else mret tt);;
  tx ← index (RawBlock_Transactions rb) idx;
  if get_bool fs raw then
    let '(txBytes, err) := proto_Marshal_RawTx tx in
    must err;;
    os_Stdout_Write txBytes
  else if get_bool fs pretty then
    fmt_Printf ("Version: " +:+ itoa (RawTx_Version tx) +:+ newline);;
    fmt_Printf ("Runlimit: " +:+ itoa (RawTx_Runlimit tx) +:+ newline);;
    fmt_Printf ("Program: " +:+ hex_EncodeToString (Program tx) +:+ newline)
  else
    os_Stdout_Write (Program tx).

(** The map [modes]. *)
Definition modes : gmap string (list string -> M unit) :=
  <["build" := build]> (<["hash" := hash]> (<["header" := header]>
  (<["new" := newBlock]> (<["sign" := sign]> (<["tx" := tx]>
  (<["validate" := validate]> ∅)))))).

(** [main], on the arguments [os.Args] of the process. *)
Definition main (os_Args : list string) : M unit :=
  (if len os_Args <? 2 then usage else mret tt);;
  mode ← index os_Args 1;
  match modes !! mode with
  | None => usage
  | Some fn =>
      args ← slice_from os_Args 2;
      fn args
  end.

(** The flag sets of these modes, before parsing. *)
Definition headerFlags : FlagSet := fs_Bool "pretty" false (NewFlagSet "header").
Definition txFlags : FlagSet :=
  fs_Bool "pretty" false (fs_Bool "raw" false (NewFlagSet "tx")).

(** The text [usage] prints. *)
Definition usageText : string :=
  "Usage:" +:+ newline +:+
  "  block validate [-prev PREVHEX] [-nosig] [-noprev] <BLOCK" +:+ newline +:+
  "  block hash <BLOCK_OR_HEADER" +:+ newline +:+
  "  block header [-pretty] <BLOCK" +:+ newline +:+
  "  block tx [-raw] [-pretty] INDEX <BLOCK" +:+ newline +:+
  "  block new [-quorum QUORUM] [-time TIME] PUBKEYHEX PUBKEYHEX ... >BLOCK" +:+ newline +:+
  "  block build [-time TIME] [-snapout FILE] TXFILE TXFILE ... <SNAPSHOT >BLOCK" +:+ newline +:+
  "  block sign -prev PREVHEX PRVHEX PRVHEX ... <BLOCK >BLOCK" +:+ newline.

(** The process [w] with [s] added to what it wrote to [os.Stderr], and
    with [b] added to what it wrote to [os.Stdout]. *)
Definition add_stderr (w : world) (s : string) : world :=
  {| w_stdin := w_stdin w; w_stdin_err := w_stdin_err w; w_now := w_now w;
     w_files := w_files w; w_readonly := w_readonly w; w_stdout := w_stdout w;
     w_stderr := w_stderr w +:+ s; w_calls := w_calls w |}.

Definition add_stdout (w : world) (b : bytes) : world :=
  {| w_stdin := w_stdin w; w_stdin_err := w_stdin_err w; w_now := w_now w;
     w_files := w_files w; w_readonly := w_readonly w; w_stdout := w_stdout w ++ b;
     w_stderr := w_stderr w; w_calls := w_calls w |}.

(** The names of the modes. *)
Definition modeNames : list string :=
  ["build"; "hash"; "header"; "new"; "sign"; "tx"; "validate"].

(** What [tx -pretty] and [header -pretty] print. *)
Definition prettyTx (t : RawTx) : string :=
  "Version: " +:+ itoa (RawTx_Version t) +:+ newline +:+
  "Runlimit: " +:+ itoa (RawTx_Runlimit t) +:+ newline +:+
  "Program: " +:+ hex_EncodeToString (Program t) +:+ newline.


(** A program that leaves the observation [obs] of the process as it
    was. *)
Definition keeps {X A : Type} (obs : world -> X) (m : M A) : Prop :=
  forall w, obs (snd (m w)) = obs w.

(** A program that writes to [os.Stdout] only in runs that return. *)
Definition writes_on_return {A : Type} (m : M A) : Prop :=
  forall w, (exists a, fst (m w) = Ret a) \/ w_stdout (snd (m w)) = w_stdout w.

(** The blocks of the recorded [validation.BlockOnly] calls. *)
Definition blockOnlyCalls (w : world) : list UnsignedBlock :=
  omap (fun c => match c with Call_BlockOnly ub => Some ub | _ => None end) (w_calls w).

(** The transactions [AddTx] was called with so far. *)
Definition addedSoFar (w : world) : list CommitmentsTx := addedTxs (w_calls w).

(** A program whose [AddTx] calls are for the transactions of the first
    files of [args], in their order. *)
Definition adds_prefix {A : Type} (args : list string) (m : M A) : Prop :=
  forall w, exists txs,
    addedSoFar (snd (m w)) = addedSoFar w ++ txs /\
    Forall2 (fun arg tx => fileTx w arg = Some tx) (take (length txs) args) txs.

End Modes.

(** The toy instance of [MorePackages]: a raw block is the height of its
    header followed by one byte for each transaction; the empty input is a
    raw block without header, and a first byte [ff] is no raw block. *)
Module ToyMore.

Definition rawTx (b : Byte.byte) : RawTx :=
  {| Program := [b]; RawTx_Version := 3; RawTx_Runlimit := 1 |}.

#[global] Instance more : MorePackages := {|
  proto_Unmarshal_RawBlock := fun bs =>
    match bs with
    | [] => ({| RawBlock_Header := None; RawBlock_Transactions := [] |}, None)
    | h :: txs =>
        if Byte.eqb h Byte.xff
        then ({| RawBlock_Header := None; RawBlock_Transactions := [] |},
              Some "proto: cannot parse invalid wire-format data")
        else ({| RawBlock_Header := Some (Toy.header (Toy.Z_of_byte h) 0 []);
                 RawBlock_Transactions := rawTx <$> txs |}, None)
    end;
  proto_Marshal_BlockHeader := fun bh =>
    match bh with
    | Some bh => ([Toy.byte_of_Z (Height bh)], None)
    | None => ([], Some "proto: Marshal called with nil")
    end;
  proto_Marshal_RawTx := fun t => (Byte.x0a :: Program t, None);
  strconv_Atoi := fun s =>
    match NilZero.int_of_string s with
    | Some i => (Z.of_int i, None)
    | None => (0, Some ("strconv.Atoi: parsing " +:+ s +:+ ": invalid syntax"))
    end;
  nil_BlockHeader_Hash :=
    Panic "runtime error: invalid memory address or nil pointer dereference"
|}.

(** The toy packages made finer in two places: a first argument [--] ends
    the flags and is dropped, and [Block.Bytes] fails on a height above
    255, which does not fit its byte. *)
Definition finer : Packages := {|
  flag_Parse := fun fs args =>
    match args with
    | "--" :: rest => (Toy.setArgs rest fs, None)
    | _ => Toy.Parse fs args
    end;
  hex_DecodeString := hex_DecodeString (Packages:=Toy.packages);
  RFC3339 := RFC3339 (Packages:=Toy.packages);
  time_Parse := time_Parse (Packages:=Toy.packages);
  proto_Unmarshal_BlockHeader := proto_Unmarshal_BlockHeader (Packages:=Toy.packages);
  proto_Unmarshal_RawTx := proto_Unmarshal_RawTx (Packages:=Toy.packages);
  ed25519_Sign := ed25519_Sign (Packages:=Toy.packages);
  bc_Millis := bc_Millis (Packages:=Toy.packages);
  bc_NewTx := bc_NewTx (Packages:=Toy.packages);
  bc_NewCommitmentsTx := bc_NewCommitmentsTx (Packages:=Toy.packages);
  Block_FromBytes := Block_FromBytes (Packages:=Toy.packages);
  Block_Bytes := fun b =>
    if Height (Header (Unsigned b)) <? 256
    then Block_Bytes (Packages:=Toy.packages) b
    else ([], Some "proto: value does not fit");
  BlockHeader_Hash := BlockHeader_Hash (Packages:=Toy.packages);
  Hash_Bytes := Hash_Bytes (Packages:=Toy.packages);
  Snapshot_FromBytes := Snapshot_FromBytes (Packages:=Toy.packages);
  Snapshot_Bytes := Snapshot_Bytes (Packages:=Toy.packages);
  protocol_NewBlockBuilder := protocol_NewBlockBuilder (Packages:=Toy.packages);
  BlockBuilder_Start := BlockBuilder_Start (Packages:=Toy.packages);
  BlockBuilder_AddTx := BlockBuilder_AddTx (Packages:=Toy.packages);
  BlockBuilder_Build := BlockBuilder_Build (Packages:=Toy.packages);
  protocol_NewInitialBlock := protocol_NewInitialBlock (Packages:=Toy.packages);
  validation_Block := validation_Block (Packages:=Toy.packages);
  validation_BlockSig := validation_BlockSig (Packages:=Toy.packages);
  validation_BlockOnly := validation_BlockOnly (Packages:=Toy.packages)
|}.

End ToyMore.

(** * Running a program

    [run] unfolds the operations of the monad at the head of the goal. *)

Ltac run :=
  repeat (progress (unfold mbind, M_bind, mret, M_ret, must, exit_if, panic,
                    os_Exit, record, Fprintln_Stderr, os_Stdout_Write,
                    ioutil_ReadAll_Stdin, ioutil_ReadFile, ioutil_WriteFile,
                    time_Now; simpl)).

(** Inversion of a run that returns normally. *)
Section Runs.
Context {T : Types}.

Lemma bind_Ret_inv {A B : Type} (m : M A) (f : A -> M B) (w w' : world) (b : B) :
  (m ≫= f) w = (Ret b, w') ->
  exists a w1, m w = (Ret a, w1) /\ f a w1 = (Ret b, w').
Proof.
  unfold mbind, M_bind. destruct (m w) as [[a| |] w1]; [eauto|discriminate..].
Qed.

Lemma must_Ret_inv (err : option error) (w w' : world) (u : unit) :
  must err w = (Ret u, w') -> err = None /\ w' = w.
Proof. destruct err; run; [discriminate|]. by intros [= _ <-]. Qed.

Lemma mret_Ret_inv {A : Type} (a b : A) (w w' : world) :
  mret (M:=M) a w = (Ret b, w') -> b = a /\ w' = w.
Proof. run. by intros [= <- <-]. Qed.

Lemma record_Ret_inv (c : call) (w w' : world) (u : unit) :
  record c w = (Ret u, w') -> w' = add_calls w [c].
Proof. run. by intros [= _ <-]. Qed.

Lemma time_Now_inv (w w' : world) (t : Time) :
  time_Now w = (Ret t, w') -> t = w_now w /\ w' = w.
Proof. run. by intros [= <- <-]. Qed.

Lemma ReadAll_Stdin_inv (w w' : world) (b : bytes) (err : option error) :
  ioutil_ReadAll_Stdin w = (Ret (b, err), w') ->
  b = w_stdin w /\ err = w_stdin_err w /\ w' = w.
Proof. run. by intros [= <- <- <-]. Qed.

Lemma WriteFile_inv (name : string) (data : bytes) (w w' : world) :
  ioutil_WriteFile name data w = (Ret None, w') ->
  w_files w' = <[name := data]> (w_files w) /\
  w_calls w' = w_calls w /\ w_stdout w' = w_stdout w.
Proof. run. case_decide; [discriminate|]. by intros [= <-]. Qed.

Lemma Stdout_Write_inv (b : bytes) (w w' : world) (u : unit) :
  os_Stdout_Write b w = (Ret u, w') ->
  w_files w' = w_files w /\
  w_calls w' = w_calls w /\ w_stdout w' = w_stdout w ++ b.
Proof. run. by intros [= _ <-]. Qed.

(** Two continuations that run alike make the binds run alike. *)
Lemma bind_ext {A B : Type} (m : M A) (f g : A -> M B) (w : world) :
  (forall a w1, f a w1 = g a w1) -> (m ≫= f) w = (m ≫= g) w.
Proof. intros H. unfold mbind, M_bind. destruct (m w) as [[a| |] w1]; [apply H|done..]. Qed.

End Runs.

Ltac inv_run :=
  repeat match goal with
  | H : (_ ≫= _) _ = (Ret _, _) |- _ =>
      apply bind_Ret_inv in H as (? & ? & ? & ?)
  | H : must _ _ = (Ret _, _) |- _ =>
      apply must_Ret_inv in H as [? ?]; subst
  | H : mret _ _ = (Ret _, _) |- _ =>
      apply mret_Ret_inv in H as [? ?]; subst
  | H : record _ _ = (Ret _, _) |- _ =>
      apply record_Ret_inv in H; subst
  | H : time_Now _ = (Ret _, _) |- _ =>
      apply time_Now_inv in H as [? ?]; subst
  | H : ioutil_ReadAll_Stdin _ = (Ret _, _) |- _ =>
      apply ReadAll_Stdin_inv in H as (? & ? & ?); subst
  | H : ioutil_WriteFile _ _ _ = (Ret None, _) |- _ =>
      apply WriteFile_inv in H as (? & ? & ?)
  | H : os_Stdout_Write _ _ = (Ret _, _) |- _ =>
      apply Stdout_Write_inv in H as (? & ? & ?)
  | H : (match ?p with _ => _ end) _ = (Ret _, _) |- _ =>
      destruct p eqn:?
  end.

(** * Properties of validate *)

Section Validate.
Context {T : Types} {P : Packages}.

(** C1: on a block of height 1, with no previous header given, [validate]
    calls [validation.BlockOnly] on the block and nothing else of the
    validator, and it returns normally exactly when that check passes;
    when the check fails it prints the error and exits with status 1. *)
Theorem validate_genesis (args : list string) (w : world) (fs : FlagSet) (b : Block) :
  flag_Parse validateFlags args = (fs, None) ->
  w_stdin_err w = None ->
  Block_FromBytes (w_stdin w) = (b, None) ->
  get_string fs "prev" = "" ->
  Height (Header (Unsigned b)) = 1 ->
  w_calls (snd (validate args w)) = w_calls w ++ [Call_BlockOnly (Unsigned b)] /\
  (fst (validate args w) = Ret tt <-> validation_BlockOnly (Unsigned b) = None) /\
  (forall e, validation_BlockOnly (Unsigned b) = Some e ->
     fst (validate args w) = Exit 1 /\
     w_stderr (snd (validate args w)) = w_stderr w +:+ e +:+ newline).
Proof.
  intros Hparse Hin Hb Hprev Hh. unfold validateFlags in Hparse.
  unfold validate. cbv zeta. rewrite Hparse. run.
  rewrite Hin, Hb. run. rewrite Hprev, Hh. run.
  destruct (validation_BlockOnly (Unsigned b)) as [e|] eqn:E; simpl.
  - split; [done|]. split; [split; discriminate|].
    intros e' [= <-]. done.
  - split; [done|]. split; [done|]. discriminate.
Qed.

(** C2: with a previous header given, [validate] first checks the block
    against that header; unless [-nosig] is set it then checks the block's
    signatures, and the predicate it checks them against is the previous
    header's [NextPredicate]: the run returns normally exactly when both
    checks pass.  With [-nosig] the signature check is not called at all,
    the check against the previous header still is, and it alone decides. *)
Theorem validate_previous (args : list string) (w : world) (fs : FlagSet)
    (b : Block) (prevBytes : bytes) (prev : BlockHeader) :
  flag_Parse validateFlags args = (fs, None) ->
  w_stdin_err w = None ->
  Block_FromBytes (w_stdin w) = (b, None) ->
  get_string fs "prev" <> "" ->
  hex_DecodeString (get_string fs "prev") = (prevBytes, None) ->
  proto_Unmarshal_BlockHeader prevBytes = (prev, None) ->
  (get_bool fs "nosig" = false ->
     w_calls (snd (validate args w)) =
       w_calls w ++ Call_Block (Unsigned b) prev ::
         match validation_Block (Unsigned b) prev with
         | None => [Call_BlockSig b (NextPredicate prev)]
         | Some _ => []
         end /\
     (fst (validate args w) = Ret tt <->
        validation_Block (Unsigned b) prev = None /\
        validation_BlockSig b (NextPredicate prev) = None)) /\
  (get_bool fs "nosig" = true ->
     w_calls (snd (validate args w)) = w_calls w ++ [Call_Block (Unsigned b) prev] /\
     (fst (validate args w) = Ret tt <-> validation_Block (Unsigned b) prev = None)).
Proof.
  intros Hparse Hin Hb Hprev Hhex Hun. unfold validateFlags in Hparse.
  apply String.eqb_neq in Hprev.
  unfold validate. cbv zeta. rewrite Hparse. run.
  rewrite Hin, Hb. run. rewrite Hprev, Hhex. run. rewrite Hun. run.
  split; intros ->; simpl.
  - destruct (validation_Block (Unsigned b) prev) as [e|]; run.
    + split; [done|]. split; [discriminate|]. intros [? _]; discriminate.
    + rewrite <- app_assoc. simpl.
      destruct (validation_BlockSig b (NextPredicate prev)); run.
      * split; [done|]. split; [discriminate|]. intros [_ ?]; discriminate.
      * done.
  - destruct (validation_Block (Unsigned b) prev) as [e|]; run.
    + split; [done|]. split; discriminate.
    + done.
Qed.

(** C10: on a block of height above 1, with neither a previous header nor
    [-noprev], [validate] calls no check of the validator, prints
    "previous blockheader not supplied" and exits with status 1. *)
Theorem validate_no_previous (args : list string) (w : world) (fs : FlagSet)
    (b : Block) :
  flag_Parse validateFlags args = (fs, None) ->
  w_stdin_err w = None ->
  Block_FromBytes (w_stdin w) = (b, None) ->
  get_string fs "prev" = "" ->
  get_bool fs "noprev" = false ->
  1 < Height (Header (Unsigned b)) ->
  fst (validate args w) = Exit 1 /\
  w_calls (snd (validate args w)) = w_calls w /\
  w_stderr (snd (validate args w)) =
    w_stderr w +:+ "previous blockheader not supplied" +:+ newline /\
  w_stdout (snd (validate args w)) = w_stdout w.
Proof.
  intros Hparse Hin Hb Hprev Hnoprev Hh. unfold validateFlags in Hparse.
  unfold validate. cbv zeta. rewrite Hparse. run.
  rewrite Hin, Hb. run. rewrite Hprev, Hnoprev. run.
  destruct (Z.eqb_spec (Height (Header (Unsigned b))) 1) as [E|_]; [lia|].
  by run.
Qed.

End Validate.

Lemma validate_genesis_witness :
  let w := Toy.start [Byte.x01] ∅ in
  let b := Toy.block 1 [] in
  w_calls (snd (validate [] w)) = w_calls w ++ [Call_BlockOnly (Unsigned b)] /\
  (fst (validate [] w) = Ret tt <-> validation_BlockOnly (Unsigned b) = None) /\
  (forall e, validation_BlockOnly (Unsigned b) = Some e ->
     fst (validate [] w) = Exit 1 /\
     w_stderr (snd (validate [] w)) = w_stderr w +:+ e +:+ newline).
Proof.
  intros w b.
  apply (validate_genesis [] w (fst (flag_Parse validateFlags [])) b);
    reflexivity.
Defined.

Lemma validate_previous_witness :
  let args := ["-prev"; "010161"] in
  let w := Toy.start [Byte.x02] ∅ in
  let b := Toy.block 2 [] in
  let prev := Toy.header 1 1 [[Byte.x61]] in
  w_calls (snd (validate args w)) =
    [Call_Block (Unsigned b) prev; Call_BlockSig b (NextPredicate prev)] /\
  fst (validate args w) = Exit 1.
Proof.
  intros args w b prev.
  destruct (validate_previous args w (fst (flag_Parse validateFlags args)) b
              [Byte.x01; Byte.x01; Byte.x61] prev) as [H _];
    try reflexivity; [discriminate|].
  destruct (H eq_refl) as [Hcalls _]. split; [exact Hcalls | reflexivity].
Defined.

Lemma validate_no_previous_witness :
  let w := Toy.start [Byte.x02] ∅ in
  fst (validate [] w) = Exit 1 /\
  w_calls (snd (validate [] w)) = w_calls w /\
  w_stderr (snd (validate [] w)) =
    w_stderr w +:+ "previous blockheader not supplied" +:+ newline /\
  w_stdout (snd (validate [] w)) = w_stdout w.
Proof.
  intros w.
  apply (validate_no_previous [] w (fst (flag_Parse validateFlags [])) (Toy.block 2 []));
    reflexivity.
Defined.

(** * Properties of new *)

Section New.
Context {T : Types} {P : Packages}.

Lemma decodePubkeys_world (pubkeysHex : list string) (pubkeys : list bytes) (w : world) :
  snd (decodePubkeys pubkeysHex pubkeys w) = w.
Proof.
  revert pubkeys. induction pubkeysHex as [|h hs IH]; intros pubkeys; simpl; [done|].
  destruct (hex_DecodeString h) as [b [e|]]; run; [done|].
  destruct (len b =? ed25519_PublicKeySize); simpl; [apply IH | done].
Qed.

Lemma decodePubkeys_ok (pubkeysHex : list string) (keys pubkeys : list bytes) (w : world) :
  Forall2 pubkeyOf pubkeysHex keys ->
  decodePubkeys pubkeysHex pubkeys w = (Ret (pubkeys ++ keys), w).
Proof.
  intros H. revert pubkeys.
  induction H as [|h k hs ks [Hhex Hlen] _ IH]; intros pubkeys; simpl.
  - by rewrite app_nil_r.
  - rewrite Hhex. run. rewrite Hlen. simpl. rewrite IH.
    by rewrite <- app_assoc.
Qed.

Lemma decodePubkeys_fails (pre post : list string) (a : string) (b : bytes)
    (pubkeys : list bytes) (w : world) :
  hex_DecodeString a = (b, None) ->
  len b <> ed25519_PublicKeySize ->
  exists e, decodePubkeys (pre ++ a :: post) pubkeys w = (Panic e, w).
Proof.
  intros Hhex Hlen. revert pubkeys.
  induction pre as [|h hs IH]; intros pubkeys; simpl.
  - rewrite Hhex. run. apply Z.eqb_neq in Hlen. rewrite Hlen. simpl. eauto.
  - destruct (hex_DecodeString h) as [k [e|]]; run; [eauto|].
    destruct (len k =? ed25519_PublicKeySize); simpl; [apply IH | eauto].
Qed.

Lemma decodePubkeys_bad_length (pre post : list string) (a : string) (b : bytes)
    (pubkeys : list bytes) (w : world) :
  Forall (fun h => snd (hex_DecodeString h) = None) pre ->
  hex_DecodeString a = (b, None) ->
  len b <> ed25519_PublicKeySize ->
  exists k, k <> 32 /\
    decodePubkeys (pre ++ a :: post) pubkeys w =
      (Panic ("bad pubkey length " +:+ itoa k +:+ ", want 32"), w).
Proof.
  intros Hpre Hhex Hlen. revert pubkeys.
  induction Hpre as [|h hs Hh _ IH]; intros pubkeys; simpl.
  - rewrite Hhex. run. exists (len b). split; [done|].
    apply Z.eqb_neq in Hlen. by rewrite Hlen.
  - destruct (hex_DecodeString h) as [k e]. simpl in Hh. subst e. run.
    destruct (Z.eqb_spec (len k) ed25519_PublicKeySize) as [_|Hk]; simpl.
    + apply IH.
    + exists (len k). done.
Qed.

(** C8: when an argument of [new] decodes to a key that does not have 32
    bytes, the run panics and leaves the process as it was: no block is
    written and [NewInitialBlock] is not called.  The panic is the
    bad-pubkey-length error when the arguments before it are hex. *)
Theorem newBlock_bad_pubkey (args : list string) (w : world) (fs : FlagSet)
    (pre post : list string) (a : string) (b : bytes) :
  flag_Parse newFlags args = (fs, None) ->
  fs_Args fs = pre ++ a :: post ->
  hex_DecodeString a = (b, None) ->
  len b <> ed25519_PublicKeySize ->
  (exists e, newBlock args w = (Panic e, w)) /\
  (Forall (fun h => snd (hex_DecodeString h) = None) pre ->
   exists k, k <> 32 /\
     newBlock args w =
       (Panic ("bad pubkey length " +:+ itoa k +:+ ", want 32"), w)).
Proof.
  intros Hparse Hargs Hhex Hlen. unfold newFlags in Hparse.
  unfold newBlock. cbv zeta. rewrite Hparse. run. unfold fs_Args in *. rewrite Hargs.
  split.
  - destruct (decodePubkeys_fails pre post a b [] w Hhex Hlen) as [e ->]. eauto.
  - intros Hpre.
    destruct (decodePubkeys_bad_length pre post a b [] w Hpre Hhex Hlen)
      as (k & Hk & ->). eauto.
Qed.

(** C6: with the public keys parsed, a quorum below 0 or above their number
    makes [new] panic with the quorum error and leaves the process as it
    was; and whenever the run asks [NewInitialBlock] for a block, the keys
    it passes are the parsed ones and the quorum it passes lies between 0
    and their number. *)
Theorem newBlock_quorum_range (args : list string) (w : world) (fs : FlagSet)
    (pubkeys : list bytes) :
  flag_Parse newFlags args = (fs, None) ->
  Forall2 pubkeyOf (fs_Args fs) pubkeys ->
  (get_int fs "quorum" < 0 \/ len pubkeys < get_int fs "quorum" ->
     newBlock args w =
       (Panic ("-quorum must be between 1 and " +:+ itoa (len pubkeys)), w)) /\
  (forall pks q ts,
     Call_NewInitialBlock pks q ts ∈ w_calls (snd (newBlock args w)) ->
     Call_NewInitialBlock pks q ts ∈ w_calls w \/
     (pks = pubkeys /\ 0 <= q <= len pks)).
Proof.
  intros Hparse Hkeys. unfold newFlags in Hparse.
  unfold newBlock. cbv zeta. rewrite Hparse. run. unfold fs_Args in *.
  rewrite (decodePubkeys_ok _ pubkeys [] w Hkeys). simpl.
  set (q0 := get_int fs "quorum").
  destruct (Z.ltb_spec q0 0) as [Hlo|Hlo]; simpl.
  { split; [done|]. intros pks q ts H. by left. }
  destruct (Z.gtb_spec q0 (len pubkeys)) as [Hhi|Hhi]; simpl.
  { split; [done|]. intros pks q ts H. by left. }
  split; [lia|].
  assert (Hq : 0 <= (if q0 =? 0 then len pubkeys else q0) <= len pubkeys).
  { destruct (Z.eqb_spec q0 0); unfold len in *; lia. }
  revert Hq. generalize (if q0 =? 0 then len pubkeys else q0). intros q' Hq'.
  intros pks q ts.
  assert (Hin : forall cs : list call,
            Call_NewInitialBlock pks q ts ∈ w_calls w ++ cs ->
            (exists t, cs = [Call_NewInitialBlock pubkeys q' t]) \/ cs = [] ->
            Call_NewInitialBlock pks q ts ∈ w_calls w \/
            pks = pubkeys /\ 0 <= q <= len pks).
  { intros cs [H|H]%elem_of_app Hcs; [by left|].
    destruct Hcs as [[t ->]| ->].
    - apply list_elem_of_singleton in H. injection H as -> -> _. by right.
    - by apply elem_of_nil in H. }
  destruct (String.eqb (get_string fs "time") ""); run.
  - destruct (protocol_NewInitialBlock pubkeys q' (w_now w)) as [blk [e|]]; run.
    { intros H. apply (Hin _ H). eauto. }
    destruct (Block_Bytes blk) as [bs [e|]]; run;
      intros H; apply (Hin _ H); eauto.
  - destruct (time_Parse RFC3339 (get_string fs "time")) as [t [e|]]; run.
    { intros H. left. exact H. }
    destruct (protocol_NewInitialBlock pubkeys q' t) as [blk [e|]]; run.
    { intros H. apply (Hin _ H). eauto. }
    destruct (Block_Bytes blk) as [bs [e|]]; run;
      intros H; apply (Hin _ H); eauto.
Qed.

(** C9: with the public keys parsed and the quorum left at 0, the quorum
    [new] passes to [NewInitialBlock] is the number of keys; it is 0 only
    when there is no key. *)
Theorem newBlock_quorum_default (args : list string) (w : world) (fs : FlagSet)
    (pubkeys : list bytes) (ts : Time) :
  flag_Parse newFlags args = (fs, None) ->
  Forall2 pubkeyOf (fs_Args fs) pubkeys ->
  get_int fs "quorum" = 0 ->
  blockTime fs w = (ts, None) ->
  w_calls (snd (newBlock args w)) =
    w_calls w ++ [Call_NewInitialBlock pubkeys (len pubkeys) ts] /\
  (len pubkeys = 0 <-> pubkeys = []).
Proof.
  intros Hparse Hkeys Hq Hts. unfold newFlags in Hparse.
  split; [|destruct pubkeys; unfold len; simpl; split; (done || lia)].
  unfold newBlock. cbv zeta. rewrite Hparse. run. unfold fs_Args in *.
  rewrite (decodePubkeys_ok _ pubkeys [] w Hkeys). simpl.
  rewrite Hq. simpl.
  destruct (Z.gtb_spec 0 (len pubkeys)) as [Hhi|Hhi]; [unfold len in Hhi; lia|].
  unfold blockTime in Hts. run.
  destruct (String.eqb (get_string fs "time") ""); run.
  - injection Hts as <-.
    destruct (protocol_NewInitialBlock pubkeys (len pubkeys) (w_now w)) as [blk [e|]];
      run; [done|].
    destruct (Block_Bytes blk) as [bs [e|]]; by run.
  - rewrite Hts. run.
    destruct (protocol_NewInitialBlock pubkeys (len pubkeys) ts) as [blk [e|]];
      run; [done|].
    destruct (Block_Bytes blk) as [bs [e|]]; by run.
Qed.

End New.

Lemma newBlock_bad_pubkey_witness :
  let w := Toy.start [] ∅ in
  exists k, k <> 32 /\
    newBlock [Toy.keyA; "00ff"] w =
      (Panic ("bad pubkey length " +:+ itoa k +:+ ", want 32"), w).
Proof.
  intros w.
  destruct (newBlock_bad_pubkey [Toy.keyA; "00ff"] w
              (fst (flag_Parse newFlags [Toy.keyA; "00ff"]))
              [Toy.keyA] [] "00ff" [Byte.x00; Byte.xff]) as [_ H];
    try reflexivity; [discriminate|].
  apply H. repeat constructor.
Defined.

Lemma newBlock_quorum_range_witness :
  let w := Toy.start [] ∅ in
  newBlock ["-quorum"; "3"; Toy.keyA; Toy.keyB] w =
    (Panic "-quorum must be between 1 and 2", w).
Proof.
  intros w.
  destruct (newBlock_quorum_range ["-quorum"; "3"; Toy.keyA; Toy.keyB] w
              (fst (flag_Parse newFlags ["-quorum"; "3"; Toy.keyA; Toy.keyB]))
              (fst <$> (hex_DecodeString <$> [Toy.keyA; Toy.keyB]))) as [H _].
  - reflexivity.
  - repeat constructor.
  - apply H. right. vm_compute. reflexivity.
Defined.

Lemma newBlock_quorum_default_witness :
  let w := Toy.start [] ∅ in
  let pubkeys := fst <$> (hex_DecodeString <$> [Toy.keyA; Toy.keyB]) in
  w_calls (snd (newBlock [Toy.keyA; Toy.keyB] w)) =
    [Call_NewInitialBlock pubkeys 2 200].
Proof.
  intros w pubkeys.
  destruct (newBlock_quorum_default [Toy.keyA; Toy.keyB] w
              (fst (flag_Parse newFlags [Toy.keyA; Toy.keyB])) pubkeys 200)
    as [H _].
  - reflexivity.
  - repeat constructor.
  - reflexivity.
  - reflexivity.
  - exact H.
Defined.

(** * Properties of sign *)

Section Sign.
Context {T : Types} {P : Packages}.

Lemma signer_absent (fs : FlagSet) (hash : bytes) (idx : Z) (w : world) :
  fs_Arg fs idx = "" -> signer fs hash idx w = (Ret (None, None), w).
Proof. intros H. unfold signer. by rewrite H. Qed.

Lemma signer_present (fs : FlagSet) (hash prv : bytes) (idx : Z) (w : world) :
  fs_Arg fs idx <> "" ->
  hex_DecodeString (fs_Arg fs idx) = (prv, None) ->
  signer fs hash idx w = (Ret (Some (ed25519_Sign prv hash), None), w).
Proof.
  intros H Hhex. unfold signer. apply String.eqb_neq in H. rewrite H, Hhex. by run.
Qed.

Lemma signer_slotOf (fs : FlagSet) (hash : bytes) (idx : Z) (w : world) :
  fs_Arg fs idx = "" \/ snd (hex_DecodeString (fs_Arg fs idx)) = None ->
  signer fs hash idx w = (Ret (slotOf fs hash idx, None), w).
Proof.
  unfold slotOf. destruct (String.eqb_spec (fs_Arg fs idx) "") as [E|E]; intros H.
  - by apply signer_absent.
  - destruct H as [H|H]; [done|].
    destruct (hex_DecodeString (fs_Arg fs idx)) as [prv e] eqn:Hhex.
    simpl in *. subst e. by apply signer_present.
Qed.

Lemma signSlots_signer (fs : FlagSet) (hash : bytes) (idxs : list Z)
    (slots : list (option bytes)) (w : world) :
  Forall (fun idx => fs_Arg fs idx = "" \/
                     snd (hex_DecodeString (fs_Arg fs idx)) = None) idxs ->
  signSlots (signer fs hash) idxs slots w =
    (Ret (slots ++ (slotOf fs hash <$> idxs), None), w).
Proof.
  intros H. revert slots. induction H as [|idx idxs Hidx _ IH]; intros slots; simpl.
  - by rewrite app_nil_r.
  - run. rewrite (signer_slotOf _ _ _ _ Hidx). rewrite IH.
    by rewrite <- app_assoc.
Qed.

(** C3: the callback [sign] gives to [bc.SignBlock] returns nothing at an
    index without a private-key argument, and at an index with one it
    returns the ed25519 signature, with that key, of the hash of the header
    of the block read from standard input.  The block [sign] writes holds,
    for each index of the previous predicate's public keys, what the
    callback returned: an absent slot where it returned nothing. *)
Theorem sign_slots (args : list string) (w : world) (fs : FlagSet)
    (prevBytes : bytes) (prev : BlockHeader) (block : Block) :
  flag_Parse signFlags args = (fs, None) ->
  hex_DecodeString (get_string fs "prev") = (prevBytes, None) ->
  proto_Unmarshal_BlockHeader prevBytes = (prev, None) ->
  w_stdin_err w = None ->
  Block_FromBytes (w_stdin w) = (block, None) ->
  let hash := Hash_Bytes (BlockHeader_Hash (Header (Unsigned block))) in
  let idxs := Z.of_nat <$> seq 0 (length (Pubkeys (NextPredicate prev))) in
  (forall idx w', fs_Arg fs idx = "" ->
     signer fs hash idx w' = (Ret (None, None), w') /\
     slotOf fs hash idx = None) /\
  (forall idx prv w',
     fs_Arg fs idx <> "" ->
     hex_DecodeString (fs_Arg fs idx) = (prv, None) ->
     signer fs hash idx w' = (Ret (Some (ed25519_Sign prv hash), None), w') /\
     slotOf fs hash idx = Some (ed25519_Sign prv hash)) /\
  (Forall (fun idx => fs_Arg fs idx = "" \/
                      snd (hex_DecodeString (fs_Arg fs idx)) = None) idxs ->
   sign args w =
     writeBlock {| Unsigned := Unsigned block;
                   Arguments := slotOf fs hash <$> idxs |} w).
Proof.
  intros Hparse Hhex Hun Hin Hb hash idxs. unfold signFlags in Hparse.
  split; [|split].
  - intros idx w' H. split; [by apply signer_absent|].
    unfold slotOf. by rewrite H.
  - intros idx prv w' H Hprv. split; [by apply signer_present|].
    unfold slotOf. apply String.eqb_neq in H. by rewrite H, Hprv.
  - intros Hidxs. unfold sign. cbv zeta. rewrite Hparse. run.
    rewrite Hhex. run. rewrite Hun. run. rewrite Hin, Hb. run.
    unfold bc_SignBlock, Block_Hash. run.
    fold hash. fold idxs.
    rewrite (signSlots_signer fs hash idxs [] w Hidxs). simpl.
    unfold writeBlock. by run.
Qed.

End Sign.

Lemma sign_slots_witness :
  let args := ["-prev"; "010061626364"; "aa"; ""; "bb"] in
  let block := Toy.block 2 [] in
  sign args (Toy.start [Byte.x02] ∅) =
    writeBlock
      {| Unsigned := Unsigned block;
         Arguments := [Some [Byte.xaa; Byte.x02]; None;
                       Some [Byte.xbb; Byte.x02]; None] |}
      (Toy.start [Byte.x02] ∅).
Proof.
  intros args block.
  pose proof (sign_slots args (Toy.start [Byte.x02] ∅)
                (fst (flag_Parse signFlags args))
                (fst (hex_DecodeString "010061626364"))
                (Toy.header 1 0 [[Byte.x61]; [Byte.x62]; [Byte.x63]; [Byte.x64]])
                block) as H.
  do 5 (lapply H; [clear H; intros H | reflexivity]).
  destruct H as (_ & _ & H).
  apply H. simpl.
  repeat (constructor; [first [left; reflexivity | right; reflexivity]|]).
  constructor.
Defined.

(** * Properties of build *)

Section Build.
Context {T : Types} {P : Packages}.

Lemma add_calls_nil (w : world) : add_calls w [] = w.
Proof. destruct w. unfold add_calls. simpl. by rewrite app_nil_r. Qed.

Lemma add_calls_app (w : world) (cs1 cs2 : list call) :
  add_calls (add_calls w cs1) cs2 = add_calls w (cs1 ++ cs2).
Proof. unfold add_calls. simpl. by rewrite app_assoc. Qed.

Lemma addTxs_added (bb bb' : BlockBuilder) (args : list string) (w w' : world) :
  addTxs bb args w = (Ret bb', w') ->
  exists txs cs,
    Forall2 (fun arg tx => fileTx w arg = Some tx) args txs /\
    added bb txs cs bb' /\
    w' = add_calls w cs.
Proof.
  revert bb w. induction args as [|arg args IH]; intros bb w; simpl.
  - intros [= <- <-]. exists [], []. split; [constructor|].
    split; [constructor|]. by rewrite add_calls_nil.
  - run.
    destruct (w_files w !! arg) as [txbits|] eqn:Hfile; simpl; [|discriminate].
    destruct (proto_Unmarshal_RawTx txbits) as [rawTx [e|]] eqn:Hraw; simpl;
      [discriminate|].
    destruct (bc_NewTx (Program rawTx) (RawTx_Version rawTx) (RawTx_Runlimit rawTx))
      as [tx [e|]] eqn:Htx; simpl; [discriminate|].
    destruct (BlockBuilder_AddTx bb (bc_NewCommitmentsTx tx)) as [bb1 [e|]] eqn:Hadd;
      simpl; [discriminate|].
    intros H. apply IH in H as (txs & cs & Htxs & Hcs & ->).
    exists (bc_NewCommitmentsTx tx :: txs), (Call_AddTx bb (bc_NewCommitmentsTx tx) :: cs).
    split; [|split].
    + constructor; [|exact Htxs].
      unfold fileTx. by rewrite Hfile, Hraw, Htx.
    + econstructor; eauto.
    + unfold add_calls. simpl. by rewrite <- app_assoc.
Qed.

Lemma added_calls (bb bb' : BlockBuilder) (txs : list CommitmentsTx) (cs : list call) :
  added bb txs cs bb' -> addedTxs cs = txs /\ builtFrom cs = [].
Proof.
  induction 1 as [|bb tx bb' txs cs bb'' _ _ [IH1 IH2]]; [done|].
  change (addedTxs (Call_AddTx bb tx :: cs)) with (tx :: addedTxs cs).
  change (builtFrom (Call_AddTx bb tx :: cs)) with (builtFrom cs).
  by rewrite IH1, IH2.
Qed.

Lemma added_leaves {L : Type} (leaves : BlockBuilder -> list L)
    (leaf : CommitmentsTx -> L) (bb bb' : BlockBuilder)
    (txs : list CommitmentsTx) (cs : list call) :
  (forall bb0 tx bb1, BlockBuilder_AddTx bb0 tx = (bb1, None) ->
                      leaves bb1 = leaves bb0 ++ [leaf tx]) ->
  added bb txs cs bb' ->
  leaves bb' = leaves bb ++ (leaf <$> txs).
Proof.
  intros Hadd. induction 1 as [|bb tx bb' txs cs bb'' H _ IH]; simpl.
  - by rewrite app_nil_r.
  - rewrite IH, (Hadd _ _ _ H). by rewrite <- app_assoc.
Qed.

(** A run of [build] that returns normally: the calls it recorded and
    what it wrote. *)
Lemma build_success (args : list string) (w : world) (fs : FlagSet) :
  flag_Parse buildFlags args = (fs, None) ->
  fst (build args w) = Ret tt ->
  exists ts snapshot bb0 txs cs bb ub newSnapshot bbytes,
    BlockBuilder_Start protocol_NewBlockBuilder snapshot ts = (bb0, None) /\
    Forall2 (fun arg tx => fileTx w arg = Some tx) (fs_Args fs) txs /\
    added bb0 txs cs bb /\
    BlockBuilder_Build bb = (ub, newSnapshot, None) /\
    Block_Bytes {| Unsigned := ub; Arguments := [] |} = (bbytes, None) /\
    w_calls (snd (build args w)) =
      w_calls w ++ Call_Start protocol_NewBlockBuilder snapshot ts :: cs ++ [Call_Build bb] /\
    w_stdout (snd (build args w)) = w_stdout w ++ bbytes /\
    (get_string fs "snapout" <> "" ->
     w_files (snd (build args w)) !! get_string fs "snapout" =
       Some (fst (Snapshot_Bytes newSnapshot))).
Proof.
  intros Hparse. unfold buildFlags in Hparse.
  destruct (build args w) as [o w'] eqn:Hbuild. simpl. intros ->.
  revert Hbuild. unfold build. cbv zeta. rewrite Hparse. intros H.
  inv_run;
    match goal with
    | H : addTxs _ _ _ = (Ret _, _) |- _ =>
        apply addTxs_added in H as (txs & cs & Htxs & Hadded & ->)
    end;
    repeat match goal with
           | H : w_calls _ = _ |- _ => simpl in H
           | H : w_stdout _ = _ |- _ => simpl in H
           end;
    do 9 eexists; (split; [eassumption|]); (split; [exact Htxs|]);
    (split; [exact Hadded|]); (split; [eassumption|]); (split; [eassumption|]);
    unfold add_calls in *; simpl in *.
  all: match goal with
       | H : negb _ = true |- _ =>
           split; [|split];
           [ repeat match goal with H : w_calls _ = _ |- _ => rewrite H; clear H end;
             by rewrite <- !app_assoc
           | repeat match goal with H : w_stdout _ = _ |- _ => rewrite H; clear H end;
             done
           | intros _;
             repeat match goal with H : w_files _ = _ |- _ => rewrite H; clear H end;
             match goal with H : Snapshot_Bytes _ = _ |- _ => rewrite H end;
             by rewrite lookup_insert_eq ]
       | H : negb _ = false |- _ =>
           split; [|split];
           [ repeat match goal with H : w_calls _ = _ |- _ => rewrite H; clear H end;
             by rewrite <- !app_assoc
           | repeat match goal with H : w_stdout _ = _ |- _ => rewrite H; clear H end;
             done
           | apply negb_false_iff, String.eqb_eq in H; intros Hne; by destruct Hne ]
       end.
Qed.

Lemma addedTxs_app (cs1 cs2 : list call) :
  addedTxs (cs1 ++ cs2) = addedTxs cs1 ++ addedTxs cs2.
Proof. apply omap_app. Qed.

Lemma builtFrom_app (cs1 cs2 : list call) :
  builtFrom (cs1 ++ cs2) = builtFrom cs1 ++ builtFrom cs2.
Proof. apply omap_app. Qed.

(** C4: in a run of [build] that returns normally, the transactions given to
    [AddTx] are those of the files the arguments name, one call for each
    argument and in the order of the arguments; the builder [Build] is
    called on is the one these calls made, so that a builder whose leaf
    list starts empty and grows by the leaf of each added transaction has
    the leaves of the arguments' transactions, in the order of the
    arguments. *)
Theorem build_adds_in_order (args : list string) (w : world) (fs : FlagSet) :
  flag_Parse buildFlags args = (fs, None) ->
  fst (build args w) = Ret tt ->
  exists txs bb,
    Forall2 (fun arg tx => fileTx w arg = Some tx) (fs_Args fs) txs /\
    addedTxs (w_calls (snd (build args w))) = addedTxs (w_calls w) ++ txs /\
    builtFrom (w_calls (snd (build args w))) = builtFrom (w_calls w) ++ [bb] /\
    forall (L : Type) (leaves : BlockBuilder -> list L) (leaf : CommitmentsTx -> L),
      (forall bb0 s t bb1,
         BlockBuilder_Start bb0 s t = (bb1, None) -> leaves bb1 = []) ->
      (forall bb0 tx bb1,
         BlockBuilder_AddTx bb0 tx = (bb1, None) ->
         leaves bb1 = leaves bb0 ++ [leaf tx]) ->
      leaves bb = leaf <$> txs.
Proof.
  intros Hparse Hrun.
  destruct (build_success args w fs Hparse Hrun)
    as (ts & snapshot & bb0 & txs & cs & bb & ub & newSnapshot & bbytes &
        Hstart & Htxs & Hadded & _ & _ & Hcalls & _).
  destruct (added_calls _ _ _ _ Hadded) as [Hcs1 Hcs2].
  exists txs, bb. split; [exact Htxs|]. rewrite Hcalls. split; [|split].
  - rewrite addedTxs_app.
    change (addedTxs (Call_Start protocol_NewBlockBuilder snapshot ts :: cs ++ [Call_Build bb]))
      with (addedTxs (cs ++ [Call_Build bb])).
    rewrite addedTxs_app, Hcs1. f_equal. apply app_nil_r.
  - rewrite builtFrom_app.
    change (builtFrom (Call_Start protocol_NewBlockBuilder snapshot ts :: cs ++ [Call_Build bb]))
      with (builtFrom (cs ++ [Call_Build bb])).
    by rewrite builtFrom_app, Hcs2.
  - intros L leaves leaf H0 H1.
    rewrite (added_leaves leaves leaf _ _ _ _ H1 Hadded).
    by rewrite (H0 _ _ _ _ Hstart).
Qed.

End Build.

Lemma build_adds_in_order_witness :
  let args := ["-time"; "1970-01-01T00:00:00.1Z"; "a"; "b"] in
  let w := Toy.start [Byte.x00; Byte.x00]
             {["a" := [Byte.x0a]; "b" := [Byte.x0b]]} in
  exists txs bb,
    Forall2 (fun arg tx => fileTx w arg = Some tx) ["a"; "b"] txs /\
    addedTxs (w_calls (snd (build args w))) = txs /\
    builtFrom (w_calls (snd (build args w))) = [bb] /\
    Toy.b_leaves bb = txs.
Proof.
  intros args w.
  destruct (build_adds_in_order args w (fst (flag_Parse buildFlags args)))
    as (txs & bb & Htxs & Hadded & Hbuilt & Hleaves); [reflexivity..|].
  exists txs, bb. split; [exact Htxs|]. split; [exact Hadded|].
  split; [exact Hbuilt|].
  rewrite (Hleaves bytes Toy.b_leaves (fun tx => tx)).
  - apply list_fmap_id.
  - intros bb0 s t bb1. simpl. destruct (t <=? Toy.s_time s); [discriminate|].
    by intros [= <-].
  - intros bb0 tx bb1. simpl. by intros [= <-].
Defined.

(** * Two runs of build *)

Section Determinism.
Context {T : Types} {P : Packages}.
Variables (paths : list string) (out : string).

Lemma sim_ret {A : Type} (a : A) : sim paths out (mret a).
Proof. intros w1 w2 H. by run. Qed.

Lemma sim_panic {A : Type} (e : error) : sim paths out (panic (A:=A) e).
Proof. intros w1 w2 H. by run. Qed.

Lemma sim_must (err : option error) : sim paths out (must err).
Proof. destruct err; [apply sim_panic | apply sim_ret]. Qed.

Lemma sim_bind {A B : Type} (m : M A) (f : A -> M B) :
  sim paths out m -> (forall a, sim paths out (f a)) -> sim paths out (m ≫= f).
Proof.
  intros Hm Hf w1 w2 H. destruct (Hm w1 w2 H) as [Ho Hw].
  unfold mbind, M_bind.
  destruct (m w1) as [o1 w1'], (m w2) as [o2 w2']. simpl in *. subst o2.
  destruct o1 as [a| |]; [by apply Hf|done..].
Qed.

Lemma sim_record (c : call) : sim paths out (record c).
Proof.
  intros w1 w2 (? & ? & ? & ? & ? & ? & Hc). run. split; [done|].
  unfold agree. simpl. by rewrite Hc.
Qed.

Lemma sim_Stdout_Write (b : bytes) : sim paths out (os_Stdout_Write b).
Proof.
  intros w1 w2 (? & ? & ? & ? & Ho & ? & ?). run. split; [done|].
  unfold agree. simpl. by rewrite Ho.
Qed.

Lemma sim_ReadAll_Stdin : sim paths out ioutil_ReadAll_Stdin.
Proof.
  intros w1 w2 H. pose proof H as (Hi & He & _). run. by rewrite Hi, He.
Qed.

Lemma sim_ReadFile (name : string) : name ∈ paths -> sim paths out (ioutil_ReadFile name).
Proof.
  intros Hin w1 w2 H. pose proof H as (_ & _ & Hf & _).
  rewrite Forall_forall in Hf. specialize (Hf name Hin).
  run. rewrite Hf. by destruct (w_files w2 !! name).
Qed.

Lemma sim_WriteFile (data : bytes) : sim paths out (ioutil_WriteFile out data).
Proof.
  intros w1 w2 H. pose proof H as (? & ? & Hf & Hro & ? & ? & ?). run.
  destruct (decide (out ∈ w_readonly w1)) as [Hd1|Hd1],
           (decide (out ∈ w_readonly w2)) as [Hd2|Hd2]; simpl; try tauto.
  split; [done|]. unfold agree. simpl. repeat split; try done; try tauto.
  rewrite Forall_forall in *. intros p Hp.
  destruct (decide (out = p)) as [->|Hne].
  - by rewrite !lookup_insert_eq.
  - rewrite !lookup_insert_ne by done. by apply Hf.
Qed.

Lemma sim_addTxs (bb : BlockBuilder) (args : list string) :
  Forall (fun arg => arg ∈ paths) args -> sim paths out (addTxs bb args).
Proof.
  intros H. revert bb. induction H as [|arg args Harg _ IH]; intros bb; simpl.
  - apply sim_ret.
  - apply sim_bind; [by apply sim_ReadFile|]. intros [txbits err].
    apply sim_bind; [apply sim_must|]. intros _.
    destruct (proto_Unmarshal_RawTx txbits) as [rawTx err1].
    apply sim_bind; [apply sim_must|]. intros _.
    destruct (bc_NewTx _ _ _) as [tx err2].
    apply sim_bind; [apply sim_must|]. intros _.
    apply sim_bind; [apply sim_record|]. intros _.
    destruct (BlockBuilder_AddTx _ _) as [bb1 err3].
    apply sim_bind; [apply sim_must|]. intros _. apply IH.
Qed.

End Determinism.

Section BuildTwice.
Context {T : Types} {P : Packages}.

Lemma build_sim (args : list string) (fs : FlagSet) :
  flag_Parse buildFlags args = (fs, None) ->
  get_string fs "time" <> "" ->
  sim (fs_Args fs) (get_string fs "snapout") (build args).
Proof.
  intros Hparse Htime. unfold buildFlags in Hparse. apply String.eqb_neq in Htime.
  unfold build. cbv zeta. rewrite Hparse, Htime.
  repeat first
    [ apply sim_ret | apply sim_must | apply sim_record | apply sim_ReadAll_Stdin
    | apply sim_WriteFile | apply sim_Stdout_Write
    | apply sim_addTxs; apply Forall_forall; intros; assumption
    | apply sim_bind; [|intros ?]
    | match goal with
      | |- sim _ _ (match ?p with _ => _ end) => destruct p
      end ].
Qed.

(** C5: two runs of [build] with the same arguments, among them a [-time],
    on the same standard input and the same content in the transaction
    files, end alike and write the same block; when they return normally
    and [-snapout] is given, the snapshot files they write are the same.
    The clocks of the two runs, and their other files, may differ. *)
Theorem build_deterministic (args : list string) (fs : FlagSet) (w1 w2 : world) :
  flag_Parse buildFlags args = (fs, None) ->
  get_string fs "time" <> "" ->
  agree (fs_Args fs) (get_string fs "snapout") w1 w2 ->
  fst (build args w1) = fst (build args w2) /\
  w_stdout (snd (build args w1)) = w_stdout (snd (build args w2)) /\
  (fst (build args w1) = Ret tt ->
   get_string fs "snapout" <> "" ->
   exists snapshotBytes,
     w_files (snd (build args w1)) !! get_string fs "snapout" = Some snapshotBytes /\
     w_files (snd (build args w2)) !! get_string fs "snapout" = Some snapshotBytes).
Proof.
  intros Hparse Htime Hagree.
  destruct (build_sim args fs Hparse Htime w1 w2 Hagree) as [Ho Hw].
  split; [exact Ho|]. split; [apply Hw|].
  intros Hret Hout. assert (Hret2 := Hret). rewrite Ho in Hret2.
  destruct (build_success args w1 fs Hparse Hret)
    as (ts1 & sn1 & bb01 & txs1 & cs1 & bb1 & ub1 & s1 & bs1 &
        _ & _ & Ha1 & Hb1 & _ & Hc1 & _ & Hf1).
  destruct (build_success args w2 fs Hparse Hret2)
    as (ts2 & sn2 & bb02 & txs2 & cs2 & bb2 & ub2 & s2 & bs2 &
        _ & _ & Ha2 & Hb2 & _ & Hc2 & _ & Hf2).
  assert (Hcalls : w_calls (snd (build args w1)) = w_calls (snd (build args w2)))
    by apply Hw.
  assert (Hcalls0 : w_calls w1 = w_calls w2) by apply Hagree.
  assert (bb1 = bb2) as Hbb.
  { rewrite Hc1, Hc2, Hcalls0 in Hcalls. apply app_inv_head in Hcalls.
    apply (f_equal builtFrom) in Hcalls.
    change (builtFrom (Call_Start protocol_NewBlockBuilder sn1 ts1 :: cs1 ++ [Call_Build bb1]))
      with (builtFrom (cs1 ++ [Call_Build bb1])) in Hcalls.
    change (builtFrom (Call_Start protocol_NewBlockBuilder sn2 ts2 :: cs2 ++ [Call_Build bb2]))
      with (builtFrom (cs2 ++ [Call_Build bb2])) in Hcalls.
    rewrite !builtFrom_app in Hcalls.
    destruct (added_calls _ _ _ _ Ha1) as [_ E1].
    destruct (added_calls _ _ _ _ Ha2) as [_ E2].
    rewrite E1, E2 in Hcalls. by injection Hcalls. }
  subst bb2. rewrite Hb1 in Hb2. injection Hb2 as _ <-.
  exists (fst (Snapshot_Bytes s1)). split; [by apply Hf1 | by apply Hf2].
Qed.

End BuildTwice.

Lemma build_deterministic_witness :
  let args := ["-time"; "1970-01-01T00:00:00.1Z"; "-snapout"; "snap"; "a"] in
  let w1 := Toy.start [Byte.x00; Byte.x00] {["a" := [Byte.x0a]]} in
  let w2 := {| w_stdin := [Byte.x00; Byte.x00]; w_stdin_err := None; w_now := 77;
               w_files := {["a" := [Byte.x0a]; "z" := [Byte.xff]]};
               w_readonly := ∅; w_stdout := []; w_stderr := ""; w_calls := [] |} in
  fst (build args w1) = fst (build args w2) /\
  w_stdout (snd (build args w1)) = w_stdout (snd (build args w2)) /\
  exists snapshotBytes,
    w_files (snd (build args w1)) !! "snap" = Some snapshotBytes /\
    w_files (snd (build args w2)) !! "snap" = Some snapshotBytes.
Proof.
  intros args w1 w2.
  destruct (build_deterministic args (fst (flag_Parse buildFlags args)) w1 w2)
    as (Ho & Hout & Hfile).
  - reflexivity.
  - discriminate.
  - repeat split; try reflexivity; try done. repeat constructor.
  - split; [exact Ho|]. split; [exact Hout|].
    apply Hfile; [reflexivity | discriminate].
Defined.

(** Without [-time] the block depends on the clock. *)
Example build_reads_the_clock :
  let w1 := Toy.start [Byte.x00; Byte.x00] ∅ in
  let w2 := {| w_stdin := [Byte.x00; Byte.x00]; w_stdin_err := None; w_now := 77;
               w_files := ∅; w_readonly := ∅; w_stdout := []; w_stderr := "";
               w_calls := [] |} in
  w_calls (snd (build [] w1)) <> w_calls (snd (build [] w2)).
Proof. intros w1 w2. vm_compute. discriminate. Qed.

(** * The error of Snapshot.Bytes in build *)

Section SnapshotError.
Context {T : Types} {P : Packages}.

(** C7 fails on the code: [build] overwrites the error of
    [newSnapshot.Bytes()] with the one of [ioutil.WriteFile] before looking
    at it.  A run is the same whatever error [Snapshot.Bytes] returns. *)
Theorem build_drops_snapshot_error (args : list string) (w : world) :
  build (P:=P) args w = build (P:=Snapshot_Bytes_error_dropped) args w.
Proof.
  unfold build. cbv zeta. simpl.
  repeat first
    [ reflexivity
    | apply bind_ext; intros
    | match goal with
      | |- (match ?p with _ => _ end) _ = _ => destruct p
      end ].
  by destruct (Snapshot_Bytes _).
Qed.

End SnapshotError.

(** A run in which [Snapshot.Bytes] fails: the time 1000 does not fit the
    byte the toy snapshot keeps it in.  The run returns normally, and the
    snapshot file is written, empty. *)
Example build_snapshot_error_run :
  let args := ["-time"; "1970-01-01T00:00:01Z"; "-snapout"; "snap"] in
  let w := Toy.start [Byte.x00; Byte.x00] ∅ in
  Snapshot_Bytes {| Toy.s_time := 1000; Toy.s_height := 1; Toy.s_txs := [] |} =
    ([], Some "proto: value does not fit") /\
  builtFrom (w_calls (snd (build args w))) =
    [{| Toy.b_snap := {| Toy.s_time := 0; Toy.s_height := 0; Toy.s_txs := [] |};
        Toy.b_time := 1000; Toy.b_leaves := [] |}] /\
  fst (build args w) = Ret tt /\
  w_files (snd (build args w)) !! "snap" = Some [] /\
  w_stdout (snd (build args w)) = [Byte.x01].
Proof. intros args w. vm_compute. repeat split; reflexivity. Qed.

(** * The other modes and main *)

(** [usage] is run as a whole, by [usage_run]. *)
Arguments usage : simpl never.

Ltac run_more :=
  repeat (progress (unfold fmt_Printf, index, slice_from, deref, ptr_Hash; run)).

Lemma append_assoc (a b c : string) : (a +:+ b) +:+ c = a +:+ (b +:+ c).
Proof.
  induction a as [|x a IH]; [done|].
  change (String x ((a +:+ b) +:+ c) = String x (a +:+ (b +:+ c))).
  by rewrite IH.
Qed.

Lemma list_byte_of_string_append (a b : string) :
  list_byte_of_string (a +:+ b) = list_byte_of_string a ++ list_byte_of_string b.
Proof.
  unfold list_byte_of_string.
  induction a as [|x a IH]; [done|].
  change (byte_of_ascii x :: map byte_of_ascii (list_ascii_of_string (a +:+ b)) =
          byte_of_ascii x :: map byte_of_ascii (list_ascii_of_string a) ++
            map byte_of_ascii (list_ascii_of_string b)).
  by rewrite IH.
Qed.

Section Main.
Context {T : Types} {P : Packages} {Q : MorePackages}.

Lemma Fprintln_bind {A : Type} (s : string) (f : unit -> M A) (w : world) :
  (Fprintln_Stderr s ≫= f) w = f tt (add_stderr w (s +:+ newline)).
Proof. reflexivity. Qed.

Lemma add_stderr_twice (w : world) (a b : string) :
  add_stderr (add_stderr w a) b = add_stderr w (a +:+ b).
Proof. unfold add_stderr. simpl. by rewrite append_assoc. Qed.

Lemma usage_run {A : Type} (w : world) :
  usage (A:=A) w = (Exit 1, add_stderr w usageText).
Proof.
  unfold usage. rewrite !Fprintln_bind, !add_stderr_twice.
  unfold os_Exit. f_equal.
Qed.

Lemma modes_unknown (mode : string) : mode ∉ modeNames -> modes !! mode = None.
Proof.
  unfold modeNames, modes. intros H.
  repeat (rewrite lookup_insert_ne; [|intros <-; apply H; set_solver]).
  apply lookup_empty.
Qed.

(** X1: with no mode, or with a mode that is none of the seven, [main]
    prints the usage text to standard error and exits with status 1; it
    runs no mode and writes nothing to standard output. *)
Theorem main_usage (os_Args : list string) (w : world) :
  (length os_Args < 2)%nat \/
  (exists prog mode rest, os_Args = prog :: mode :: rest /\ mode ∉ modeNames) ->
  main os_Args w = (Exit 1, add_stderr w usageText).
Proof.
  intros [H|(prog & mode & rest & -> & H)]; unfold main.
  - replace (len os_Args <? 2) with true
      by (symmetry; apply Z.ltb_lt; unfold len; lia).
    unfold mbind at 1, M_bind at 1. cbv iota. by rewrite usage_run.
  - replace (len (prog :: mode :: rest) <? 2) with false
      by (symmetry; apply Z.ltb_ge; unfold len; simpl; lia).
    unfold mbind at 1, M_bind at 1. unfold mret at 1, M_ret at 1. cbv iota.
    unfold index.
    replace ((1 <? 0) || (1 >=? len (prog :: mode :: rest))) with false
      by (symmetry; change (1 <? 0) with false; rewrite orb_false_l, Z.geb_leb;
          apply Z.leb_gt; unfold len; simpl length; lia).
    cbv iota. change ((prog :: mode :: rest) !! Z.to_nat 1) with (Some mode).
    cbv iota. unfold mbind at 1, M_bind at 1. unfold mret at 1, M_ret at 1.
    cbv iota. rewrite (modes_unknown _ H). apply usage_run.
Qed.

(** X2: [main] runs the mode its first argument names on the arguments
    after it. *)
Theorem main_dispatch (prog : string) (rest : list string) (w : world) :
  main (prog :: "build" :: rest) w = build rest w /\
  main (prog :: "hash" :: rest) w = hash rest w /\
  main (prog :: "header" :: rest) w = header rest w /\
  main (prog :: "new" :: rest) w = newBlock rest w /\
  main (prog :: "sign" :: rest) w = sign rest w /\
  main (prog :: "tx" :: rest) w = tx rest w /\
  main (prog :: "validate" :: rest) w = validate rest w.
Proof.
  assert (Hrun : forall mode (fn : list string -> M unit), modes !! mode = Some fn ->
            main (prog :: mode :: rest) w = fn rest w).
  { intros mode fn Hfn. unfold main.
    replace (len (prog :: mode :: rest) <? 2) with false
      by (symmetry; apply Z.ltb_ge; unfold len; simpl; lia).
    unfold mbind at 1, M_bind at 1. unfold mret at 1, M_ret at 1. cbv iota.
    unfold index.
    replace ((1 <? 0) || (1 >=? len (prog :: mode :: rest))) with false
      by (symmetry; change (1 <? 0) with false; rewrite orb_false_l, Z.geb_leb;
          apply Z.leb_gt; unfold len; simpl length; lia).
    cbv iota. change ((prog :: mode :: rest) !! Z.to_nat 1) with (Some mode).
    cbv iota. unfold mbind at 1, M_bind at 1. unfold mret at 1, M_ret at 1.
    cbv iota. rewrite Hfn. unfold slice_from.
    replace ((2 <? 0) || (2 >? len (prog :: mode :: rest))) with false
      by (symmetry; change (2 <? 0) with false; rewrite orb_false_l, Z.gtb_ltb;
          apply Z.ltb_ge; unfold len; simpl length; lia).
    cbv iota. change (drop (Z.to_nat 2) (prog :: mode :: rest)) with rest.
    unfold mbind, M_bind, mret at 1, M_ret at 1.
    by destruct (fn rest w) as [[[]| |] ?]. }
  unfold modes in Hrun.
  repeat split; apply Hrun;
    repeat (rewrite lookup_insert_ne by done); by rewrite lookup_insert_eq.
Qed.

End Main.

Lemma main_usage_witness :
  main ["block"; "verify"; "x"] (Toy.start [] ∅) =
    (Exit 1, add_stderr (Toy.start [] ∅) usageText) /\
  main ["block"] (Toy.start [] ∅) =
    (Exit 1, add_stderr (Toy.start [] ∅) usageText).
Proof.
  split.
  - apply main_usage. right. exists "block", "verify", ["x"]. split; [done|].
    unfold modeNames. intros Hin.
    repeat (apply elem_of_cons in Hin as [Hin|Hin]; [discriminate|]).
    by apply elem_of_nil in Hin.
  - apply main_usage. left. simpl. lia.
Defined.

Section Tx.
Context {T : Types} {P : Packages} {Q : MorePackages}.

Lemma len_cons_ltb {A : Type} (a : A) (l : list A) : (len (a :: l) <? 1) = false.
Proof. apply Z.ltb_ge. unfold len. simpl length. lia. Qed.

Lemma index_in_range {A : Type} (l : list A) (i : Z) (a : A) (w : world) :
  0 <= i -> l !! Z.to_nat i = Some a -> index l i w = (Ret a, w).
Proof.
  intros Hi Ha. unfold index.
  assert (Hlt : i < len l) by (apply lookup_lt_Some in Ha; unfold len; lia).
  replace (i <? 0) with false by (symmetry; apply Z.ltb_ge; lia).
  rewrite orb_false_l, Z.geb_leb.
  replace (len l <=? i) with false by (symmetry; apply Z.leb_gt; lia).
  by rewrite Ha.
Qed.

(** X3: [tx] without an index argument prints the usage text and exits
    with status 1, before standard input is read. *)
Theorem tx_no_index (args : list string) (w : world) (fs : FlagSet) :
  flag_Parse txFlags args = (fs, None) ->
  fs_Args fs = [] ->
  tx args w = (Exit 1, add_stderr w usageText).
Proof.
  intros Hparse Hargs. unfold txFlags in Hparse.
  unfold tx. cbv zeta. rewrite Hparse. run. unfold fs_Args in *.
  rewrite Hargs. change (len (@nil string) <? 1) with true. cbv iota.
  by rewrite usage_run.
Qed.

(** X4: a negative index makes [tx] panic with "index out of range" before
    it reads standard input: the process is left as it was, whatever
    standard input holds. *)
Theorem tx_negative_index (args : list string) (w : world) (fs : FlagSet)
    (arg0 : string) (rest : list string) (idx : Z) :
  flag_Parse txFlags args = (fs, None) ->
  fs_Args fs = arg0 :: rest ->
  strconv_Atoi arg0 = (idx, None) ->
  idx < 0 ->
  tx args w = (Panic "index out of range", w).
Proof.
  intros Hparse Hargs Hidx Hneg. unfold txFlags in Hparse.
  unfold tx. cbv zeta. rewrite Hparse. run. unfold fs_Args in *.
  rewrite Hargs, len_cons_ltb. run. rewrite Hidx. run.
  apply Z.ltb_lt in Hneg. by rewrite Hneg.
Qed.

(** X5: an index that is not below the number of transactions of the block
    makes [tx] panic with "index out of range"; nothing is written. *)
Theorem tx_index_too_large (args : list string) (w : world) (fs : FlagSet)
    (arg0 : string) (rest : list string) (idx : Z) (rb : RawBlock) :
  flag_Parse txFlags args = (fs, None) ->
  fs_Args fs = arg0 :: rest ->
  strconv_Atoi arg0 = (idx, None) ->
  w_stdin_err w = None ->
  proto_Unmarshal_RawBlock (w_stdin w) = (rb, None) ->
  len (RawBlock_Transactions rb) <= idx ->
  tx args w = (Panic "index out of range", w).
Proof.
  intros Hparse Hargs Hidx Hin Hrb Hlarge. unfold txFlags in Hparse.
  unfold tx. cbv zeta. rewrite Hparse. run. unfold fs_Args in *.
  rewrite Hargs, len_cons_ltb. run. rewrite Hidx. run.
  assert (Hpos : 0 <= idx) by (unfold len in Hlarge; lia).
  apply Z.ltb_ge in Hpos. rewrite Hpos. run. rewrite Hin, Hrb. run.
  rewrite Z.geb_leb. apply Z.leb_le in Hlarge. by rewrite Hlarge.
Qed.

(** X6: with an index [idx] in range, [tx] writes transaction [idx] of the
    block and nothing else: with [-raw] its serialization, also when
    [-pretty] is set too; else with [-pretty] its version, runlimit and
    program in hex, a line each; else its program. *)
Theorem tx_output (args : list string) (w : world) (fs : FlagSet)
    (arg0 : string) (rest : list string) (idx : Z) (rb : RawBlock) (t : RawTx) :
  flag_Parse txFlags args = (fs, None) ->
  fs_Args fs = arg0 :: rest ->
  strconv_Atoi arg0 = (idx, None) ->
  w_stdin_err w = None ->
  proto_Unmarshal_RawBlock (w_stdin w) = (rb, None) ->
  0 <= idx ->
  RawBlock_Transactions rb !! Z.to_nat idx = Some t ->
  tx args w =
    if get_bool fs "raw" then
      match proto_Marshal_RawTx t with
      | (txBytes, None) => (Ret tt, add_stdout w txBytes)
      | (_, Some e) => (Panic e, w)
      end
    else if get_bool fs "pretty" then
      (Ret tt, add_stdout w (list_byte_of_string (prettyTx t)))
    else (Ret tt, add_stdout w (Program t)).
Proof.
  intros Hparse Hargs Hidx Hin Hrb Hpos Ht. unfold txFlags in Hparse.
  unfold tx. cbv zeta. rewrite Hparse. run. unfold fs_Args in *.
  rewrite Hargs, len_cons_ltb. run. rewrite Hidx. run.
  assert (Hlt : idx < len (RawBlock_Transactions rb)).
  { apply lookup_lt_Some in Ht. unfold len. lia. }
  pose proof Hpos as Hpos'.
  apply Z.ltb_ge in Hpos. rewrite Hpos. run. rewrite Hin, Hrb. run.
  rewrite Z.geb_leb.
  replace (len (RawBlock_Transactions rb) <=? idx) with false
    by (symmetry; apply Z.leb_gt; lia).
  run. rewrite (index_in_range _ _ _ _ Hpos' Ht).
  destruct (get_bool fs "raw").
  - destruct (proto_Marshal_RawTx t) as [txBytes [e|]]; by run.
  - destruct (get_bool fs "pretty"); [|done].
    run_more. unfold add_stdout, prettyTx. do 2 f_equal.
    rewrite <- !app_assoc, <- !list_byte_of_string_append.
    by rewrite !append_assoc.
Qed.

End Tx.

Lemma tx_no_index_witness :
  tx ["-raw"] (Toy.start [] ∅) = (Exit 1, add_stderr (Toy.start [] ∅) usageText).
Proof.
  apply (tx_no_index ["-raw"] (Toy.start [] ∅) (fst (flag_Parse txFlags ["-raw"])));
    reflexivity.
Defined.

Lemma tx_negative_index_witness :
  let w := {| w_stdin := []; w_stdin_err := Some "read error"; w_now := 0;
              w_files := ∅; w_readonly := ∅; w_stdout := []; w_stderr := "";
              w_calls := [] |} in
  tx (P:=ToyMore.finer) ["--"; "-1"] w = (Panic "index out of range", w).
Proof.
  intros w.
  apply (tx_negative_index (P:=ToyMore.finer) ["--"; "-1"] w
           (fst (flag_Parse (Packages:=ToyMore.finer) txFlags ["--"; "-1"]))
           "-1" [] (-1));
    reflexivity.
Defined.

Lemma tx_index_too_large_witness :
  let w := Toy.start [Byte.x02; Byte.x61; Byte.x62] ∅ in
  tx ["2"] w = (Panic "index out of range", w).
Proof.
  intros w.
  apply (tx_index_too_large ["2"] w (fst (flag_Parse txFlags ["2"])) "2" [] 2
           (fst (proto_Unmarshal_RawBlock (w_stdin w))));
    first [reflexivity | vm_compute; discriminate].
Defined.

Lemma tx_output_witness :
  let w := Toy.start [Byte.x02; Byte.x61; Byte.x62] ∅ in
  tx ["-pretty"; "1"] w =
    (Ret tt, add_stdout w (list_byte_of_string (prettyTx (ToyMore.rawTx Byte.x62)))) /\
  prettyTx (ToyMore.rawTx Byte.x62) =
    "Version: 3" +:+ newline +:+ "Runlimit: 1" +:+ newline +:+ "Program: 62" +:+ newline.
Proof.
  intros w. split; [|reflexivity].
  rewrite (tx_output ["-pretty"; "1"] w (fst (flag_Parse txFlags ["-pretty"; "1"]))
             "1" [] 1 (fst (proto_Unmarshal_RawBlock (w_stdin w)))
             (ToyMore.rawTx Byte.x62))
    by first [reflexivity | lia].
  reflexivity.
Defined.

Section Hash.
Context {T : Types} {P : Packages} {Q : MorePackages}.

(** X7: [hash] takes a block or a bare header.  When standard input
    parses as a raw block with a header, it writes the hash of that header
    and does not try the input as a header.  When it does not parse as a
    raw block, the input is parsed as a header and its hash is written; if
    that fails too, the panic carries the error of the second parse, the
    one of the first is lost. *)
Theorem hash_block_or_header (args : list string) (w : world) (rb : RawBlock)
    (err : option error) :
  w_stdin_err w = None ->
  proto_Unmarshal_RawBlock (w_stdin w) = (rb, err) ->
  (forall bh, err = None -> RawBlock_Header rb = Some bh ->
     hash args w = (Ret tt, add_stdout w (Hash_Bytes (BlockHeader_Hash bh)))) /\
  (forall e bh, err = Some e ->
     proto_Unmarshal_BlockHeader (w_stdin w) = (bh, None) ->
     hash args w = (Ret tt, add_stdout w (Hash_Bytes (BlockHeader_Hash bh)))) /\
  (forall e bh e2, err = Some e ->
     proto_Unmarshal_BlockHeader (w_stdin w) = (bh, Some e2) ->
     hash args w = (Panic e2, w)).
Proof.
  intros Hin Hrb. unfold hash. run. rewrite Hin, Hrb. run.
  split; [|split].
  - intros bh -> Hbh. run_more. rewrite Hbh. by run_more.
  - intros e bh -> Hbh. rewrite Hbh. by run_more.
  - intros e bh e2 -> Hbh. rewrite Hbh. by run_more.
Qed.

End Hash.

Lemma hash_block_or_header_witness :
  hash [] (Toy.start [Byte.x05; Byte.x61] ∅) =
    (Ret tt, add_stdout (Toy.start [Byte.x05; Byte.x61] ∅) [Byte.x05]) /\
  hash [] (Toy.start [Byte.xff; Byte.x01] ∅) =
    (Ret tt, add_stdout (Toy.start [Byte.xff; Byte.x01] ∅) [Byte.xff]) /\
  hash [] (Toy.start [Byte.xff] ∅) =
    (Panic "proto: unexpected EOF", Toy.start [Byte.xff] ∅).
Proof.
  split; [|split].
  - pose proof (hash_block_or_header [] (Toy.start [Byte.x05; Byte.x61] ∅)
                  (fst (proto_Unmarshal_RawBlock [Byte.x05; Byte.x61])) None) as H.
    do 2 (lapply H; [clear H; intros H | reflexivity]).
    destruct H as (H & _ & _). exact (H (Toy.header 5 0 []) eq_refl eq_refl).
  - pose proof (hash_block_or_header [] (Toy.start [Byte.xff; Byte.x01] ∅)
                  (fst (proto_Unmarshal_RawBlock [Byte.xff; Byte.x01]))
                  (Some "proto: cannot parse invalid wire-format data")) as H.
    do 2 (lapply H; [clear H; intros H | reflexivity]).
    destruct H as (_ & H & _). exact (H _ (Toy.header 255 1 []) eq_refl eq_refl).
  - pose proof (hash_block_or_header [] (Toy.start [Byte.xff] ∅)
                  (fst (proto_Unmarshal_RawBlock [Byte.xff]))
                  (Some "proto: cannot parse invalid wire-format data")) as H.
    do 2 (lapply H; [clear H; intros H | reflexivity]).
    destruct H as (_ & _ & H). exact (H _ (Toy.header 0 0 []) _ eq_refl eq_refl).
Defined.

Section Header.
Context {T : Types} {P : Packages} {Q : MorePackages}.



Lemma must_None_bind {A : Type} (f : unit -> M A) (w : world) :
  (must None ≫= f) w = f tt w.
Proof. reflexivity. Qed.

Lemma ReadAll_Stdin_bind {A : Type} (f : bytes * option error -> M A) (w : world) :
  (ioutil_ReadAll_Stdin ≫= f) w = f (w_stdin w, w_stdin_err w) w.
Proof. reflexivity. Qed.


(** The start of [header]: up to the decoded raw block. *)
Lemma header_start (args : list string) (w : world) (fs : FlagSet) (rb : RawBlock) :
  flag_Parse headerFlags args = (fs, None) ->
  w_stdin_err w = None ->
  proto_Unmarshal_RawBlock (w_stdin w) = (rb, None) ->
  header args w =
    (if get_bool fs "pretty" then
       bh ← deref (RawBlock_Header rb);
       let pubkeys := hex_EncodeToString <$> Pubkeys (NextPredicate bh) in
       fmt_Printf ("Version: " +:+ itoa (Version bh) +:+ newline);;
       fmt_Printf ("Height: " +:+ itoa (Height bh) +:+ newline);;
       match PreviousBlockId bh with
       | Some id =>
           fmt_Printf ("PreviousBlockId: " +:+ hex_EncodeToString (Hash_Bytes id) +:+ newline)
       | None => fmt_Printf ("PreviousBlockId: nil" +:+ newline)
       end;;
       fmt_Printf ("TimestampMs: " +:+ itoa (TimestampMs bh) +:+ newline);;
       fmt_Printf ("Runlimit: " +:+ itoa (Runlimit bh) +:+ newline);;
       fmt_Printf ("RefsCount: " +:+ itoa (RefsCount bh) +:+ newline);;
       fmt_Printf ("TransactionsRoot: " +:+
                   hex_EncodeToString (Hash_Bytes (TransactionsRoot bh)) +:+ newline);;
       fmt_Printf ("ContractsRoot: " +:+
                   hex_EncodeToString (Hash_Bytes (ContractsRoot bh)) +:+ newline);;
       fmt_Printf ("NoncesRoot: " +:+
                   hex_EncodeToString (Hash_Bytes (NoncesRoot bh)) +:+ newline);;
       fmt_Printf ("NextPredicate.Version: " +:+
                   itoa (Predicate_Version (NextPredicate bh)) +:+ newline);;
       fmt_Printf ("NextPredicate.Quorum: " +:+
                   itoa (Quorum (NextPredicate bh)) +:+ newline);;
       fmt_Printf ("NextPredicate.Pubkeys: " +:+ strings_Join pubkeys " " +:+ newline);;
       fmt_Printf ("Transactions: " +:+ itoa (len (RawBlock_Transactions rb)) +:+ newline)
     else
       let '(headerBytes, err) := proto_Marshal_BlockHeader (RawBlock_Header rb) in
       must err;;
       os_Stdout_Write headerBytes) w.
Proof.
  intros Hparse Hin Hrb. unfold headerFlags in Hparse.
  unfold header. cbv zeta. rewrite Hparse. cbv beta iota.
  rewrite must_None_bind, ReadAll_Stdin_bind, Hin. cbv beta iota.
  rewrite must_None_bind, Hrb. cbv beta iota.
  by rewrite must_None_bind.
Qed.

(** X8: [header -pretty] on a raw block without header panics on the nil
    header before it prints anything. *)
Theorem header_pretty_nil (args : list string) (w : world) (fs : FlagSet)
    (rb : RawBlock) :
  flag_Parse headerFlags args = (fs, None) ->
  w_stdin_err w = None ->
  proto_Unmarshal_RawBlock (w_stdin w) = (rb, None) ->
  get_bool fs "pretty" = true ->
  RawBlock_Header rb = None ->
  exists e, header args w = (Panic e, w).
Proof.
  intros Hparse Hin Hrb Hpretty Hnil.
  rewrite (header_start args w fs rb Hparse Hin Hrb), Hpretty, Hnil.
  eexists. reflexivity.
Qed.


End Header.

Lemma header_pretty_nil_witness :
  exists e, header ["-pretty"] (Toy.start [] ∅) = (Panic e, Toy.start [] ∅).
Proof.
  apply (header_pretty_nil ["-pretty"] (Toy.start [] ∅)
           (fst (flag_Parse headerFlags ["-pretty"]))
           (fst (proto_Unmarshal_RawBlock [])));
    reflexivity.
Defined.


(** * What a program leaves as it was *)

Section Keeps.
Context {T : Types} {X : Type} (obs : world -> X).

Lemma keeps_bind {A B : Type} (m : M A) (f : A -> M B) :
  keeps obs m -> (forall a, keeps obs (f a)) -> keeps obs (m ≫= f).
Proof.
  intros Hm Hf w. unfold mbind, M_bind. specialize (Hm w).
  destruct (m w) as [[a| |] w1]; simpl in *; [|done..].
  by rewrite Hf.
Qed.

Lemma keeps_same {A : Type} (m : M A) :
  (forall w, snd (m w) = w) -> keeps obs m.
Proof. intros H w. by rewrite H. Qed.

End Keeps.

Ltac keeps_step :=
  first
    [ apply keeps_bind; [|intros ?]
    | apply keeps_same; intros ?; run_more; repeat case_match; reflexivity
    | solve [intros ?; run_more; repeat case_match; reflexivity]
    | match goal with
      | |- keeps _ (match ?p with _ => _ end) => destruct p
      end ].

Section ValidateMore.
Context {T : Types} {P : Packages}.

(** X10: when standard input does not decode to a block, [validate] prints
    the error and exits with status 1, whatever its flags; no check of the
    validator is called. *)
Theorem validate_bad_block (args : list string) (w : world) (fs : FlagSet)
    (b : Block) (e : error) :
  flag_Parse validateFlags args = (fs, None) ->
  w_stdin_err w = None ->
  Block_FromBytes (w_stdin w) = (b, Some e) ->
  validate args w = (Exit 1, add_stderr w (e +:+ newline)).
Proof.
  intros Hparse Hin Hb. unfold validateFlags in Hparse.
  unfold validate. cbv zeta. rewrite Hparse. run. rewrite Hin, Hb. by run.
Qed.

(** X11: with [-noprev] and no previous header, [validate] applies
    [validation.BlockOnly] alone to a block of any height, and returns
    normally exactly when it passes. *)
Theorem validate_noprev (args : list string) (w : world) (fs : FlagSet) (b : Block) :
  flag_Parse validateFlags args = (fs, None) ->
  w_stdin_err w = None ->
  Block_FromBytes (w_stdin w) = (b, None) ->
  get_string fs "prev" = "" ->
  get_bool fs "noprev" = true ->
  w_calls (snd (validate args w)) = w_calls w ++ [Call_BlockOnly (Unsigned b)] /\
  (fst (validate args w) = Ret tt <-> validation_BlockOnly (Unsigned b) = None).
Proof.
  intros Hparse Hin Hb Hprev Hnoprev. unfold validateFlags in Hparse.
  unfold validate. cbv zeta. rewrite Hparse. run. rewrite Hin, Hb. run.
  rewrite Hprev, Hnoprev, orb_true_r. run.
  destruct (validation_BlockOnly (Unsigned b)); run; split; done.
Qed.

(** X12: no run of [validate] writes to standard output or to a file. *)
Theorem validate_writes_nothing (args : list string) (w : world) :
  w_stdout (snd (validate args w)) = w_stdout w /\
  w_files (snd (validate args w)) = w_files w.
Proof.
  split.
  - revert w. change (keeps w_stdout (validate args)).
    unfold validate, exit_if. cbv zeta. repeat keeps_step.
  - revert w. change (keeps w_files (validate args)).
    unfold validate, exit_if. cbv zeta. repeat keeps_step.
Qed.

Lemma keeps_blockOnlyCalls_record (c : call) :
  (forall ub, c <> Call_BlockOnly ub) -> keeps blockOnlyCalls (record c).
Proof.
  intros H w. run. unfold blockOnlyCalls. simpl. rewrite omap_app. simpl.
  destruct c; try apply app_nil_r. by destruct (H ub).
Qed.

(** X13: when a previous header is given, [validation.BlockOnly] is not
    called in any run, also on a block of height 1 and with [-noprev]. *)
Theorem validate_previous_not_BlockOnly (args : list string) (w : world)
    (fs : FlagSet) :
  flag_Parse validateFlags args = (fs, None) ->
  get_string fs "prev" <> "" ->
  blockOnlyCalls (snd (validate args w)) = blockOnlyCalls w.
Proof.
  intros Hparse Hprev. unfold validateFlags in Hparse.
  apply String.eqb_neq in Hprev.
  revert w. change (keeps blockOnlyCalls (validate args)).
  unfold validate, exit_if. cbv zeta. rewrite Hparse, Hprev. simpl negb. cbv iota.
  repeat first
    [ apply keeps_blockOnlyCalls_record; intros; discriminate
    | keeps_step ].
Qed.

End ValidateMore.

Lemma validate_bad_block_witness :
  validate ["-noprev"] (Toy.start [] ∅) =
    (Exit 1, add_stderr (Toy.start [] ∅) ("proto: unexpected EOF" +:+ newline)).
Proof.
  apply (validate_bad_block ["-noprev"] (Toy.start [] ∅)
           (fst (flag_Parse validateFlags ["-noprev"])) (Toy.block 0 []));
    reflexivity.
Defined.

Lemma validate_noprev_witness :
  let w := Toy.start [Byte.x07] ∅ in
  w_calls (snd (validate ["-noprev"] w)) = [Call_BlockOnly (Unsigned (Toy.block 7 []))] /\
  (fst (validate ["-noprev"] w) = Ret tt <->
   validation_BlockOnly (Unsigned (Toy.block 7 [])) = None).
Proof.
  intros w.
  apply (validate_noprev ["-noprev"] w (fst (flag_Parse validateFlags ["-noprev"]))
           (Toy.block 7 []));
    reflexivity.
Defined.

Lemma validate_previous_not_BlockOnly_witness :
  let args := ["-noprev"; "-prev"; "0000"] in
  let w := Toy.start [Byte.x01] ∅ in
  blockOnlyCalls (snd (validate args w)) = [].
Proof.
  intros args w.
  apply (validate_previous_not_BlockOnly args w (fst (flag_Parse validateFlags args)));
    [reflexivity | discriminate].
Defined.

Section NewMore.
Context {T : Types} {P : Packages}.

(** X14: with the public keys decoded, a quorum between 0 and their number,
    a timestamp and the initial block made, [new] asks [NewInitialBlock]
    once, for the keys in the order of the arguments, with the quorum as
    given (the number of keys when it is 0) and the timestamp, and writes
    the serialization of the block it returns. *)
Theorem newBlock_writes_initial_block (args : list string) (w : world)
    (fs : FlagSet) (pubkeys : list bytes) (ts : Time) (block : Block) :
  flag_Parse newFlags args = (fs, None) ->
  Forall2 pubkeyOf (fs_Args fs) pubkeys ->
  0 <= get_int fs "quorum" <= len pubkeys ->
  blockTime fs w = (ts, None) ->
  let quorum :=
    if get_int fs "quorum" =? 0 then len pubkeys else get_int fs "quorum" in
  protocol_NewInitialBlock pubkeys quorum ts = (block, None) ->
  newBlock args w =
    writeBlock block (add_calls w [Call_NewInitialBlock pubkeys quorum ts]).
Proof.
  intros Hparse Hkeys Hq Hts quorum Hblock. unfold newFlags in Hparse.
  unfold newBlock. cbv zeta. rewrite Hparse. run. unfold fs_Args in *.
  rewrite (decodePubkeys_ok _ pubkeys [] w Hkeys). simpl.
  destruct (Z.ltb_spec (get_int fs "quorum") 0) as [?|_]; [lia|].
  destruct (Z.gtb_spec (get_int fs "quorum") (len pubkeys)) as [?|_]; [lia|].
  simpl. fold quorum. unfold blockTime in Hts. unfold writeBlock.
  destruct (String.eqb (get_string fs "time") ""); run.
  - injection Hts as <-. rewrite Hblock. by run.
  - rewrite Hts. run. rewrite Hblock. by run.
Qed.

(** X15: an argument of [new] that is not hex, after arguments that are
    public keys, makes the run panic with the error of the decoding; the
    process is left as it was. *)
Theorem newBlock_bad_hex (args : list string) (w : world) (fs : FlagSet)
    (pre post : list string) (keys : list bytes) (a : string) (b : bytes)
    (e : error) :
  flag_Parse newFlags args = (fs, None) ->
  fs_Args fs = pre ++ a :: post ->
  Forall2 pubkeyOf pre keys ->
  hex_DecodeString a = (b, Some e) ->
  newBlock args w = (Panic e, w).
Proof.
  intros Hparse Hargs Hpre Hhex. unfold newFlags in Hparse.
  unfold newBlock. cbv zeta. rewrite Hparse. run. unfold fs_Args in *.
  rewrite Hargs.
  assert (H : forall acc, decodePubkeys (pre ++ a :: post) acc w = (Panic e, w)).
  { clear Hargs. induction Hpre as [|h k hs ks [Hh Hlen] _ IH]; intros acc; simpl.
    - rewrite Hhex. by run.
    - rewrite Hh. run. rewrite Hlen. simpl. apply IH. }
  by rewrite H.
Qed.

End NewMore.

Lemma newBlock_writes_initial_block_witness :
  let args := ["-quorum"; "1"; Toy.keyA; Toy.keyB] in
  let w := Toy.start [] ∅ in
  let pubkeys := fst <$> (hex_DecodeString <$> [Toy.keyA; Toy.keyB]) in
  newBlock args w =
    (Ret tt,
     add_stdout (add_calls w [Call_NewInitialBlock pubkeys 1 200]) [Byte.x01]).
Proof.
  intros args w pubkeys.
  pose proof (newBlock_writes_initial_block args w
                (fst (flag_Parse newFlags args)) pubkeys 200
                (fst (protocol_NewInitialBlock pubkeys 1 200))) as H.
  lapply H; [clear H; intros H | reflexivity].
  lapply H; [clear H; intros H | repeat constructor].
  lapply H; [clear H; intros H | vm_compute; split; discriminate].
  lapply H; [clear H; intros H | reflexivity].
  lapply H; [clear H; intros H | reflexivity].
  exact H.
Defined.

Lemma newBlock_bad_hex_witness :
  newBlock [Toy.keyA; "xyz"] (Toy.start [] ∅) =
    (Panic "encoding/hex: invalid byte", Toy.start [] ∅).
Proof.
  apply (newBlock_bad_hex [Toy.keyA; "xyz"] (Toy.start [] ∅)
           (fst (flag_Parse newFlags [Toy.keyA; "xyz"]))
           [Toy.keyA] [] (fst <$> (hex_DecodeString <$> [Toy.keyA])) "xyz" []);
    try reflexivity.
  repeat constructor.
Defined.

Section BuildMore.
Context {T : Types} {P : Packages}.

Lemma keeps_addTxs {X : Type} (obs : world -> X) (bb : BlockBuilder)
    (args : list string) :
  (forall c, keeps obs (record c)) -> keeps obs (addTxs bb args).
Proof.
  intros Hrec. revert bb. induction args as [|arg args IH]; intros bb; simpl.
  - by intros w.
  - repeat first [ apply IH | apply Hrec | keeps_step ].
Qed.

Lemma writes_on_return_keeps {A : Type} (m : M A) :
  keeps w_stdout m -> writes_on_return m.
Proof. intros H w. right. apply H. Qed.

Lemma writes_on_return_bind {A B : Type} (m : M A) (f : A -> M B) :
  keeps w_stdout m -> (forall a, writes_on_return (f a)) ->
  writes_on_return (m ≫= f).
Proof.
  intros Hm Hf w. unfold mbind, M_bind. specialize (Hm w).
  destruct (m w) as [[a| |] w1]; simpl in *; [|by right..].
  destruct (Hf a w1) as [H|H]; [by left|]. right. by rewrite H.
Qed.

Lemma writes_on_return_Write (b : bytes) : writes_on_return (os_Stdout_Write b).
Proof. intros w. left. by exists tt. Qed.

Ltac writes_step :=
  first
    [ apply writes_on_return_Write
    | apply writes_on_return_bind;
        [ solve [ repeat first [ apply keeps_addTxs; intros ?; intros ?; reflexivity
                               | keeps_step ] ]
        | intros ? ]
    | match goal with
      | |- writes_on_return (match ?p with _ => _ end) => destruct p
      end
    | apply writes_on_return_keeps; solve [repeat keeps_step] ].

(** X16: a run of [build] or of [new] that does not return normally has
    written nothing to standard output: no partial block. *)
Theorem failed_run_writes_no_block (args : list string) (w : world) :
  (fst (build args w) <> Ret tt ->
   w_stdout (snd (build args w)) = w_stdout w) /\
  (fst (newBlock args w) <> Ret tt ->
   w_stdout (snd (newBlock args w)) = w_stdout w).
Proof.
  assert (Hkeys : forall hs acc, keeps w_stdout (decodePubkeys hs acc)).
  { intros hs acc w0. by rewrite decodePubkeys_world. }
  split.
  - assert (H : writes_on_return (build args)).
    { unfold build. cbv zeta. repeat writes_step. }
    destruct (H w) as [[[] Ha]|Hs]; [by intros []|done].
  - assert (H : writes_on_return (newBlock args)).
    { unfold newBlock. cbv zeta.
      repeat first
        [ apply writes_on_return_bind; [apply Hkeys | intros ?]
        | writes_step ]. }
    destruct (H w) as [[[] Ha]|Hs]; [by intros []|done].
Qed.

(** X17: without [-snapout], no run of [build] writes a file. *)
Theorem build_without_snapout (args : list string) (w : world) (fs : FlagSet) :
  flag_Parse buildFlags args = (fs, None) ->
  get_string fs "snapout" = "" ->
  w_files (snd (build args w)) = w_files w.
Proof.
  intros Hparse Hout. unfold buildFlags in Hparse.
  revert w. change (keeps w_files (build args)).
  unfold build. cbv zeta. rewrite Hparse, Hout. simpl negb. cbv iota.
  repeat first
    [ apply keeps_addTxs; intros ?; intros ?; reflexivity
    | keeps_step ].
Qed.

(** X18: when [Start] refuses the snapshot and timestamp, [build] panics
    with its error right after that call: no file is read, no transaction
    is added and [Build] is not called. *)
Theorem build_start_error (args : list string) (w : world) (fs : FlagSet)
    (ts : Time) (snapshot : Snapshot) (bb : BlockBuilder) (e : error) :
  flag_Parse buildFlags args = (fs, None) ->
  blockTime fs w = (ts, None) ->
  w_stdin_err w = None ->
  Snapshot_FromBytes (w_stdin w) = (snapshot, None) ->
  BlockBuilder_Start protocol_NewBlockBuilder snapshot (bc_Millis ts) = (bb, Some e) ->
  build args w =
    (Panic e,
     add_calls w [Call_Start protocol_NewBlockBuilder snapshot (bc_Millis ts)]).
Proof.
  intros Hparse Hts Hin Hsnap Hstart. unfold buildFlags in Hparse.
  unfold build. cbv zeta. rewrite Hparse. run. unfold blockTime in Hts.
  destruct (String.eqb (get_string fs "time") ""); run.
  - injection Hts as <-. rewrite Hin, Hsnap. run. rewrite Hstart. by run.
  - rewrite Hts. run. rewrite Hin, Hsnap. run. rewrite Hstart. by run.
Qed.

End BuildMore.

Lemma failed_run_writes_no_block_witness :
  let args := ["-time"; "1970-01-01T00:00:00.1Z"; "missing"] in
  let w := Toy.start [Byte.x00; Byte.x00] ∅ in
  w_stdout (snd (build args w)) = w_stdout w.
Proof.
  intros args w.
  destruct (failed_run_writes_no_block args w) as [H _].
  apply H. vm_compute. discriminate.
Defined.

Lemma build_without_snapout_witness :
  let args := ["-time"; "1970-01-01T00:00:00.1Z"; "a"] in
  let w := Toy.start [Byte.x00; Byte.x00] {["a" := [Byte.x0a]]} in
  w_files (snd (build args w)) = w_files w.
Proof.
  intros args w.
  apply (build_without_snapout args w (fst (flag_Parse buildFlags args)));
    reflexivity.
Defined.

Lemma build_start_error_witness :
  let args := ["-time"; "1970-01-01T00:00:00.1Z"; "a"] in
  let w := Toy.start [Byte.xc8; Byte.x00] {["a" := [Byte.x0a]]} in
  build args w =
    (Panic "timestamp is not after the snapshot",
     add_calls w [Call_Start protocol_NewBlockBuilder
                    {| Toy.s_time := 200; Toy.s_height := 0; Toy.s_txs := [] |} 100]).
Proof.
  intros args w.
  rewrite (build_start_error args w (fst (flag_Parse buildFlags args)) 100
             {| Toy.s_time := 200; Toy.s_height := 0; Toy.s_txs := [] |}
             protocol_NewBlockBuilder "timestamp is not after the snapshot")
    by reflexivity.
  reflexivity.
Defined.

Section BuildPrefix.
Context {T : Types} {P : Packages}.

Lemma keeps_addedSoFar_record (c : call) :
  (forall bb tx, c <> Call_AddTx bb tx) -> keeps addedSoFar (record c).
Proof.
  intros H w. run. unfold addedSoFar. simpl. rewrite addedTxs_app.
  destruct c as [? ? ?|bb0 t|?|? ? ?|? ?|? ?|?]; try apply app_nil_r.
  by destruct (H bb0 t).
Qed.

Lemma adds_prefix_keeps {A : Type} (args : list string) (m : M A) :
  keeps addedSoFar m -> adds_prefix args m.
Proof.
  intros H w. exists []. rewrite H, app_nil_r. split; [done|]. constructor.
Qed.

Lemma adds_prefix_before {A B : Type} (args : list string) (m : M A)
    (f : A -> M B) :
  keeps addedSoFar m -> keeps w_files m ->
  (forall a, adds_prefix args (f a)) -> adds_prefix args (m ≫= f).
Proof.
  intros Hm Hfiles Hf w. unfold mbind, M_bind.
  specialize (Hm w). specialize (Hfiles w).
  destruct (m w) as [[a| |] w1]; simpl in *.
  - destruct (Hf a w1) as (txs & H1 & H2). exists txs. rewrite H1, Hm.
    split; [done|]. unfold fileTx in *. by rewrite <- Hfiles.
  - exists []. rewrite Hm, app_nil_r. split; [done|]. constructor.
  - exists []. rewrite Hm, app_nil_r. split; [done|]. constructor.
Qed.

Lemma adds_prefix_after {A B : Type} (args : list string) (m : M A)
    (f : A -> M B) :
  adds_prefix args m -> (forall a, keeps addedSoFar (f a)) ->
  adds_prefix args (m ≫= f).
Proof.
  intros Hm Hf w. unfold mbind, M_bind.
  destruct (Hm w) as (txs & H1 & H2). exists txs. split; [|done].
  destruct (m w) as [[a| |] w1]; simpl in *; [|done..].
  by rewrite Hf.
Qed.

Lemma adds_prefix_addTxs (bb : BlockBuilder) (args : list string) :
  adds_prefix args (addTxs bb args).
Proof.
  revert bb. induction args as [|arg args IH]; intros bb w.
  - exists []. simpl. rewrite app_nil_r. split; [done|]. constructor.
  - assert (Hnone : exists txs : list CommitmentsTx,
              addedSoFar w = addedSoFar w ++ txs /\
              Forall2 (fun arg tx => fileTx w arg = Some tx)
                (take (length txs) (arg :: args)) txs).
    { exists []. rewrite app_nil_r. split; [done|]. constructor. }
    simpl. run. unfold fileTx at 1.
    destruct (w_files w !! arg) as [txbits|] eqn:Hfile; simpl; [|exact Hnone].
    destruct (proto_Unmarshal_RawTx txbits) as [rawTx [e|]] eqn:Hraw; simpl;
      [exact Hnone|].
    destruct (bc_NewTx (Program rawTx) (RawTx_Version rawTx) (RawTx_Runlimit rawTx))
      as [t [e|]] eqn:Htx; simpl; [exact Hnone|].
    assert (Hfile' : fileTx w arg = Some (bc_NewCommitmentsTx t)).
    { unfold fileTx. by rewrite Hfile, Hraw, Htx. }
    fold (add_calls w [Call_AddTx bb (bc_NewCommitmentsTx t)]).
    destruct (BlockBuilder_AddTx bb (bc_NewCommitmentsTx t)) as [bb1 [e|]]; simpl.
    + exists [bc_NewCommitmentsTx t]. split.
      * unfold addedSoFar, add_calls. simpl. by rewrite addedTxs_app.
      * simpl. constructor; [done|constructor].
    + destruct (IH bb1 (add_calls w [Call_AddTx bb (bc_NewCommitmentsTx t)]))
        as (txs & H1 & H2).
      exists (bc_NewCommitmentsTx t :: txs). split.
      * rewrite H1. unfold addedSoFar, add_calls. simpl.
        rewrite addedTxs_app. by rewrite <- app_assoc.
      * simpl. constructor; [done|exact H2].
Qed.

(** X19: in every run of [build], also one that fails, the transactions
    [AddTx] is called with are those of the files of the first arguments,
    one call for each and in their order: no file is skipped, and after a
    file or transaction that fails none is added. *)
Theorem build_adds_a_prefix (args : list string) (w : world) (fs : FlagSet) :
  flag_Parse buildFlags args = (fs, None) ->
  exists txs,
    addedTxs (w_calls (snd (build args w))) = addedTxs (w_calls w) ++ txs /\
    Forall2 (fun arg tx => fileTx w arg = Some tx)
      (take (length txs) (fs_Args fs)) txs.
Proof.
  intros Hparse. unfold buildFlags in Hparse.
  revert w. change (adds_prefix (fs_Args fs) (build args)).
  unfold build. cbv zeta. rewrite Hparse.
  repeat first
    [ apply adds_prefix_after;
        [ apply adds_prefix_addTxs
        | intros ?;
          repeat first [ apply keeps_addedSoFar_record; intros; discriminate
                       | keeps_step ] ]
    | apply adds_prefix_before;
        [ solve [ repeat first [ apply keeps_addedSoFar_record; intros; discriminate
                               | keeps_step ] ]
        | solve [ repeat keeps_step ]
        | intros ? ]
    | match goal with
      | |- adds_prefix _ (match ?p with _ => _ end) => destruct p
      end ].
Qed.

End BuildPrefix.

Lemma build_adds_a_prefix_witness :
  let args := ["-time"; "1970-01-01T00:00:00.1Z"; "a"; "missing"; "b"] in
  let w := Toy.start [Byte.x00; Byte.x00]
             {["a" := [Byte.x0a]; "b" := [Byte.x0b]]} in
  exists txs,
    addedTxs (w_calls (snd (build args w))) = txs /\
    Forall2 (fun arg tx => fileTx w arg = Some tx)
      (take (length txs) ["a"; "missing"; "b"]) txs.
Proof.
  intros args w.
  destruct (build_adds_a_prefix args w (fst (flag_Parse buildFlags args)))
    as (txs & H1 & H2); [reflexivity|].
  exists txs. split; [exact H1 | exact H2].
Defined.

Section Last.
Context {T : Types} {P : Packages}.

(** X20: [build] writes the snapshot file before it serializes the block:
    when the serialization of the block fails, the run panics without a
    block on standard output, and the new snapshot is in the file all the
    same. *)
Theorem build_snapshot_written_before_block (args : list string) (w w1 : world)
    (fs : FlagSet) (ts : Time) (snapshot newSnapshot : Snapshot)
    (bb0 bb : BlockBuilder) (ub : UnsignedBlock) (bbytes : bytes) (e : error) :
  flag_Parse buildFlags args = (fs, None) ->
  blockTime fs w = (ts, None) ->
  w_stdin_err w = None ->
  Snapshot_FromBytes (w_stdin w) = (snapshot, None) ->
  BlockBuilder_Start protocol_NewBlockBuilder snapshot (bc_Millis ts) = (bb0, None) ->
  addTxs bb0 (fs_Args fs)
    (add_calls w [Call_Start protocol_NewBlockBuilder snapshot (bc_Millis ts)]) =
    (Ret bb, w1) ->
  BlockBuilder_Build bb = (ub, newSnapshot, None) ->
  get_string fs "snapout" <> "" ->
  get_string fs "snapout" ∉ w_readonly w ->
  Block_Bytes {| Unsigned := ub; Arguments := [] |} = (bbytes, Some e) ->
  fst (build args w) = Panic e /\
  w_stdout (snd (build args w)) = w_stdout w /\
  w_files (snd (build args w)) !! get_string fs "snapout" =
    Some (fst (Snapshot_Bytes newSnapshot)).
Proof.
  intros Hparse Hts Hin Hsnap Hstart Hloop Hbuild Hout Hrw Hbytes.
  unfold buildFlags in Hparse. apply String.eqb_neq in Hout.
  destruct (addTxs_added _ _ _ _ _ Hloop) as (txs & cs & _ & _ & Hw1).
  assert (Hrun : build args w =
            (Panic e,
             {| w_stdin := w_stdin w; w_stdin_err := w_stdin_err w; w_now := w_now w;
                w_files := <[get_string fs "snapout" := fst (Snapshot_Bytes newSnapshot)]>
                             (w_files w);
                w_readonly := w_readonly w; w_stdout := w_stdout w;
                w_stderr := w_stderr w;
                w_calls := w_calls w1 ++ [Call_Build bb] |})).
  { unfold build. cbv zeta. rewrite Hparse. run. unfold blockTime in Hts.
    unfold add_calls in Hloop.
    destruct (String.eqb (get_string fs "time") ""); run.
    - injection Hts as <-. rewrite Hin, Hsnap. run. rewrite Hstart. run.
      unfold fs_Args in *. rewrite Hloop, Hbuild. run. rewrite Hout. simpl.
      destruct (Snapshot_Bytes newSnapshot) as [sb serr]. run.
      subst w1. simpl. rewrite decide_False by done. run. rewrite Hbytes. run.
      by rewrite Hin.
    - rewrite Hts. run. rewrite Hin, Hsnap. run. rewrite Hstart. run.
      unfold fs_Args in *. rewrite Hloop, Hbuild. run. rewrite Hout. simpl.
      destruct (Snapshot_Bytes newSnapshot) as [sb serr]. run.
      subst w1. simpl. rewrite decide_False by done. run. rewrite Hbytes. run.
      by rewrite Hin. }
  rewrite Hrun. simpl. split; [done|]. split; [done|]. apply lookup_insert_eq.
Qed.

(** X21: once its flags, standard input and, if given, the previous header
    are read, [validate] does not panic: it returns normally, or it prints
    one line to standard error and exits with status 1. *)
Theorem validate_returns_or_exits (args : list string) (w : world) (fs : FlagSet) :
  flag_Parse validateFlags args = (fs, None) ->
  w_stdin_err w = None ->
  get_string fs "prev" = "" \/
    (snd (hex_DecodeString (get_string fs "prev")) = None /\
     snd (proto_Unmarshal_BlockHeader
            (fst (hex_DecodeString (get_string fs "prev")))) = None) ->
  fst (validate args w) = Ret tt \/
  (fst (validate args w) = Exit 1 /\
   exists msg, w_stderr (snd (validate args w)) = w_stderr w +:+ msg +:+ newline).
Proof.
  intros Hparse Hin Hprev. unfold validateFlags in Hparse.
  unfold validate. cbv zeta. rewrite Hparse. run. rewrite Hin. run.
  destruct (Block_FromBytes (w_stdin w)) as [b [e|]]; run; [right; eauto|].
  destruct (String.eqb_spec (get_string fs "prev") "") as [E|E]; simpl.
  - destruct ((Height (Header (Unsigned b)) =? 1) || get_bool fs "noprev"); run.
    + destruct (validation_BlockOnly (Unsigned b)); run; [right|left]; eauto.
    + right. eauto.
  - destruct Hprev as [?|[H1 H2]]; [done|].
    destruct (hex_DecodeString (get_string fs "prev")) as [prevBytes e1].
    simpl in *. subst e1. run.
    destruct (proto_Unmarshal_BlockHeader prevBytes) as [prev e2].
    simpl in *. subst e2. run.
    destruct (validation_Block (Unsigned b) prev); run; [right; eauto|].
    destruct (get_bool fs "nosig"); run; [by left|].
    destruct (validation_BlockSig b (NextPredicate prev)); run; [right|left]; eauto.
Qed.

Lemma sim_decodePubkeys (paths : list string) (out : string)
    (pubkeysHex : list string) (pubkeys : list bytes) :
  sim paths out (decodePubkeys pubkeysHex pubkeys).
Proof.
  intros w1 w2 H. rewrite !decodePubkeys_world. split; [|done].
  revert pubkeys.
  induction pubkeysHex as [|h hs IH]; intros pubkeys; simpl; [done|].
  destruct (hex_DecodeString h) as [b [e|]]; run; [done|].
  destruct (len b =? ed25519_PublicKeySize); simpl; [apply IH|done].
Qed.

(** X22: with [-time], [new] does not read the clock: two processes that
    differ in their clocks and their files end alike and write the same
    block. *)
Theorem newBlock_time_given (args : list string) (fs : FlagSet) (w1 w2 : world) :
  flag_Parse newFlags args = (fs, None) ->
  get_string fs "time" <> "" ->
  agree [] "" w1 w2 ->
  fst (newBlock args w1) = fst (newBlock args w2) /\
  w_stdout (snd (newBlock args w1)) = w_stdout (snd (newBlock args w2)) /\
  w_calls (snd (newBlock args w1)) = w_calls (snd (newBlock args w2)).
Proof.
  intros Hparse Htime Hagree. unfold newFlags in Hparse.
  apply String.eqb_neq in Htime.
  assert (H : sim [] "" (newBlock args)).
  { unfold newBlock. cbv zeta. rewrite Hparse, Htime.
    repeat first
      [ apply sim_ret | apply sim_must | apply sim_record | apply sim_panic
      | apply sim_Stdout_Write | apply sim_decodePubkeys
      | apply sim_bind; [|intros ?]
      | match goal with
        | |- sim _ _ (match ?p with _ => _ end) => destruct p
        end ]. }
  destruct (H w1 w2 Hagree) as [Ho Hw]. split; [done|]. split; apply Hw.
Qed.

End Last.

Lemma build_snapshot_written_before_block_witness :
  let args := ["-time"; "1970-01-01T00:00:00.1Z"; "-snapout"; "snap"] in
  let w := Toy.start [Byte.x00; Byte.xff] ∅ in
  fst (build (P:=ToyMore.finer) args w) = Panic "proto: value does not fit" /\
  w_stdout (snd (build (P:=ToyMore.finer) args w)) = [] /\
  w_files (snd (build (P:=ToyMore.finer) args w)) !! "snap" =
    Some [Byte.x64; Byte.x00].
Proof.
  intros args w.
  pose proof (build_snapshot_written_before_block (P:=ToyMore.finer) args w
                (add_calls w [Call_Start (protocol_NewBlockBuilder (Packages:=ToyMore.finer))
                                {| Toy.s_time := 0; Toy.s_height := 255; Toy.s_txs := [] |} 100])
                (fst (flag_Parse (Packages:=ToyMore.finer) buildFlags args)) 100
                {| Toy.s_time := 0; Toy.s_height := 255; Toy.s_txs := [] |}
                {| Toy.s_time := 100; Toy.s_height := 256; Toy.s_txs := [] |}
                {| Toy.b_snap := {| Toy.s_time := 0; Toy.s_height := 255; Toy.s_txs := [] |};
                   Toy.b_time := 100; Toy.b_leaves := [] |}
                {| Toy.b_snap := {| Toy.s_time := 0; Toy.s_height := 255; Toy.s_txs := [] |};
                   Toy.b_time := 100; Toy.b_leaves := [] |}
                {| Header := Toy.header 256 0 []; Transactions := [] |}
                [] "proto: value does not fit") as H.
  do 7 (lapply H; [clear H; intros H | reflexivity]).
  lapply H; [clear H; intros H | discriminate].
  lapply H; [clear H; intros H | set_solver].
  lapply H; [clear H; intros H | reflexivity].
  exact H.
Defined.

Lemma validate_returns_or_exits_witness :
  let w := Toy.start [Byte.x02] ∅ in
  fst (validate ["-prev"; "0101"] w) = Ret tt \/
  (fst (validate ["-prev"; "0101"] w) = Exit 1 /\
   exists msg, w_stderr (snd (validate ["-prev"; "0101"] w)) =
                 w_stderr w +:+ msg +:+ newline).
Proof.
  intros w.
  apply (validate_returns_or_exits ["-prev"; "0101"] w
           (fst (flag_Parse validateFlags ["-prev"; "0101"])));
    [reflexivity | reflexivity | right; split; reflexivity].
Defined.

Lemma newBlock_time_given_witness :
  let args := ["-time"; "1970-01-01T00:00:01Z"; Toy.keyA] in
  let w1 := Toy.start [] ∅ in
  let w2 := {| w_stdin := []; w_stdin_err := None; w_now := 77;
               w_files := {["z" := [Byte.xff]]}; w_readonly := ∅; w_stdout := [];
               w_stderr := ""; w_calls := [] |} in
  fst (newBlock args w1) = fst (newBlock args w2) /\
  w_stdout (snd (newBlock args w1)) = w_stdout (snd (newBlock args w2)) /\
  w_calls (snd (newBlock args w1)) = w_calls (snd (newBlock args w2)).
Proof.
  intros args w1 w2.
  apply (newBlock_time_given args (fst (flag_Parse newFlags args)) w1 w2).
  - reflexivity.
  - discriminate.
  - repeat split; try reflexivity; done.
Defined.
